(** * node-tree-sitter: node handles and the document binding

    A shallow embedding of [src/ast_node.cc] and [src/document.cc].

    The binding sits between V8 and the tree-sitter runtime.  JavaScript
    values are an inductive type, a native callback is a computation over
    the call's return-value slot and pending exception, and the runtime
    (whose header [tree_sitter/runtime.h] is outside the sources) is an
    interface of functions the callbacks are parameterised over. *)

From Stdlib Require Import ZArith NArith Lia Bool List.
From Stdlib Require Import Floats.SpecFloat.
From stdpp Require Import gmap strings list.

Set Warnings "-register-all".
Local Open Scope Z_scope.

(** ** Machine integers *)

(** A value reduced to the range of [int32_t]. *)
Definition int32_wrap (z : Z) : Z := (z + 2 ^ 31) mod 2 ^ 32 - 2 ^ 31.

(** [(size_t) i] for a signed [i]: reduction modulo [2^64]. *)
Definition size_t_of_int (z : Z) : N := Z.to_N (z mod 2 ^ 64).

(** [int32_t r = s] for a [size_t] value [s]. *)
Definition int32_of_size_t (n : N) : Z := int32_wrap (Z.of_N n).

(** ** Runtime data (tree_sitter/runtime.h) *)

(** A [TSDocument *]. *)
Definition TSDocumentPtr := Z.

(** [TSNode]: the binding only ever reads [data], a pointer that is null
    for "no node"; whatever else the runtime keeps in the struct is
    [engine_private]. *)
Record TSNode := { data : Z; engine_private : N }.

Record TSPoint := { row : N; column : N }.

(** The three [size_t] fields [Document::Edit] assigns by name. *)
Record TSInputEdit := { position : N; chars_inserted : N; chars_removed : N }.

(** ** JavaScript values *)

(** The C++ object behind a node handle. *)
Record ASTNode := {
  node_ : TSNode;
  document_ : TSDocumentPtr;
  parse_count_ : N
}.

(** A Number is a sign, mantissa and binary exponent, or one of the special
    values; every double is such a triple.  Objects are property maps;
    wrapper objects carry their native object. *)
Inductive JSValue :=
| JSUndefined
| JSNull
| JSBoolean (b : bool)
| JSNumber (f : spec_float)
| JSString (s : string)
| JSFunction (id : nat)
| JSObject (props : gmap string JSValue)
| JSASTNode (node : ASTNode)
| JSASTNodeArray (node : TSNode) (document : TSDocumentPtr)
                 (parse_count : N) (is_named : bool)
| JSDocument (document : TSDocumentPtr).

Inductive Exception :=
| TypeError (message : string).

Definition IsObject (v : JSValue) : bool :=
  match v with
  | JSFunction _ | JSObject _ | JSASTNode _ | JSASTNodeArray _ _ _ _
  | JSDocument _ => true
  | _ => false
  end.

Definition IsNumber (v : JSValue) : bool :=
  match v with JSNumber _ => true | _ => false end.

Definition IsFunction (v : JSValue) : bool :=
  match v with JSFunction _ => true | _ => false end.

Definition IsNull (v : JSValue) : bool :=
  match v with JSNull => true | _ => false end.

Definition IsUndefined (v : JSValue) : bool :=
  match v with JSUndefined => true | _ => false end.

Definition IsFalse (v : JSValue) : bool :=
  match v with JSBoolean false => true | _ => false end.

(** [object->Get(key)]: the property, or [undefined] when there is none.
    Only plain objects carry properties here. *)
Definition Get (object : JSValue) (key : string) : JSValue :=
  match object with
  | JSObject props => default JSUndefined (props !! key)
  | _ => JSUndefined
  end.

(** [Value::Int32Value()] on a Number: ECMAScript ToInt32.  NaN, the
    infinities and the zeros give 0; a finite value is truncated towards
    zero and reduced modulo [2^32] into the signed range. *)
Definition ToInt32 (f : spec_float) : Z :=
  match f with
  | S754_finite s m e =>
      int32_wrap ((if s then -1 else 1) * Z.shiftl (Z.pos m) e)
  | _ => 0
  end.

(** [Int32Value()] is only called on values that passed [IsNumber()]. *)
Definition Int32Value (v : JSValue) : Z :=
  match v with JSNumber f => ToInt32 f | _ => 0 end.

(** The Number holding the integer [z] ([Nan::New<Integer>],
    [Nan::New<Number>] on an integral argument). *)
Definition Number_of_Z (z : Z) : spec_float :=
  match z with
  | Z0 => S754_zero false
  | Zpos m => S754_finite false m 0
  | Zneg m => S754_finite true m 0
  end.

(** [info[i]]: [undefined] past the end of the argument list. *)
Definition info_at (info : list JSValue) (i : nat) : JSValue :=
  default JSUndefined (info !! i).

(** ** Native callbacks *)

(** What a call leaves behind: the return-value slot, the exception that is
    pending in the isolate, and the world [W] the callback may change. *)
Record CallState (W : Type) := {
  return_value : JSValue;
  exception : option Exception;
  world : W
}.
Arguments return_value {W} _.
Arguments exception {W} _.
Arguments world {W} _.

Definition Callback (W A : Type) : Type := CallState W -> A * CallState W.

Definition ret {W A} (a : A) : Callback W A := fun s => (a, s).

Definition bind {W A B} (m : Callback W A) (k : A -> Callback W B)
  : Callback W B :=
  fun s => let (a, s') := m s in k a s'.

Notation "x <- m ;; k" := (bind m (fun x => k))
  (at level 20, m at level 99, k at level 200, only parsing).
Notation "m ;; k" := (bind m (fun _ => k))
  (at level 100, k at level 200, right associativity, only parsing).

(** [info.GetReturnValue().Set(v)]. *)
Definition SetReturnValue {W} (v : JSValue) : Callback W unit :=
  fun s => (tt, {| return_value := v; exception := exception s;
                   world := world s |}).

(** [Nan::ThrowTypeError(msg)]: schedules the exception; the callback keeps
    running until it returns. *)
Definition ThrowTypeError {W} (msg : string) : Callback W unit :=
  fun s => (tt, {| return_value := return_value s;
                   exception := Some (TypeError msg);
                   world := world s |}).

Definition get_world {W} : Callback W W := fun s => (world s, s).

Definition put_world {W} (w : W) : Callback W unit :=
  fun s => (tt, {| return_value := return_value s;
                   exception := exception s; world := w |}).

(** What the JavaScript caller observes. *)
Inductive Outcome :=
| Returns (v : JSValue)
| Throws (e : Exception).

(** Run a callback from a fresh call frame: the return value starts out as
    [undefined] and nothing is pending. *)
Definition call {W} (m : Callback W unit) (w : W) : Outcome * W :=
  let s := snd (m {| return_value := JSUndefined; exception := None;
                     world := w |}) in
  (match exception s with
   | Some e => Throws e
   | None => Returns (return_value s)
   end, world s).

(** A callback that leaves the world alone, run for its outcome. *)
Definition invoke (m : Callback unit unit) : Outcome := fst (call m tt).

(** ** The runtime, as the node handles see it *)

(** The queries of [tree_sitter/runtime.h] that [ast_node.cc] calls.  None
    of them changes the tree, so a handle method sees the runtime as a
    family of functions: the parse counter of each document and the
    structure of the tree as they stand when the method runs. *)
Class Engine := {
  ts_document_parse_count : TSDocumentPtr -> N;
  ts_node_string : TSNode -> TSDocumentPtr -> string;
  ts_node_type : TSNode -> TSDocumentPtr -> string;
  ts_node_is_named : TSNode -> bool;
  ts_node_start_byte : TSNode -> N;
  ts_node_end_byte : TSNode -> N;
  ts_node_start_point : TSNode -> TSPoint;
  ts_node_end_point : TSNode -> TSPoint;
  ts_node_parent : TSNode -> TSNode;
  ts_node_next_sibling : TSNode -> TSNode;
  ts_node_next_named_sibling : TSNode -> TSNode;
  ts_node_prev_sibling : TSNode -> TSNode;
  ts_node_prev_named_sibling : TSNode -> TSNode;
  ts_node_descendant_for_byte_range : TSNode -> N -> N -> TSNode;
  ts_node_named_descendant_for_byte_range : TSNode -> N -> N -> TSNode;
  ts_node_descendant_for_point_range : TSNode -> TSPoint -> TSPoint -> TSNode;
  ts_node_named_descendant_for_point_range :
    TSNode -> TSPoint -> TSPoint -> TSNode
}.

(** ** ast_node.cc *)

Definition row_key : string := "row".
Definition column_key : string := "column".

(** [Nan::New<Number>] takes a double: the conversion of a [size_t] is exact
    below [2^53], which is where [Number_of_Z] stands for it. *)
Definition PointToJS (point : TSPoint) : JSValue :=
  JSObject (<[column_key := JSNumber (Number_of_Z (Z.of_N (column point)))]>
            (<[row_key := JSNumber (Number_of_Z (Z.of_N (row point)))]> ∅)).

(** Throws for a non-object; for an object whose [row] or [column] is not a
    number it gives [Nothing] and throws nothing. *)
Definition PointFromJS {W} (arg : JSValue) : Callback W (option TSPoint) :=
  if negb (IsObject arg) then
    ThrowTypeError "Point must be a {row, column} object" ;;
    ret None
  else
    let js_row := Get arg row_key in
    let js_column := Get arg column_key in
    if negb (IsNumber js_row) || negb (IsNumber js_column) then
      ret None
    else
      let row := Int32Value js_row in
      let column := Int32Value js_column in
      ret (Some {| row := size_t_of_int row; column := size_t_of_int column |}).

(** [input->Int32Value() * 2] is an [int] product (taken to wrap around when
    it overflows), converted to [size_t]. *)
Definition ByteIndexFromJSStringIndex {W} (input : JSValue)
  : Callback W (option N) :=
  if negb (IsNumber input) then
    ThrowTypeError "Character index must be a number" ;;
    ret None
  else
    ret (Some (size_t_of_int (int32_wrap (Int32Value input * 2)))).

(** [Nan::ObjectWrap::Unwrap<ASTNode>]: the native object of a handle; a
    null pointer for anything that wraps none. *)
Definition ObjectWrap_Unwrap (object : JSValue) : option ASTNode :=
  match object with
  | JSASTNode node => Some node
  | _ => None
  end.

Definition Unwrap (object : JSValue) : option ASTNode :=
  match ObjectWrap_Unwrap object with
  | Some node => if data (node_ node) =? 0 then None else Some node
  | None => None
  end.

Definition NewInstance (node : TSNode) (document : TSDocumentPtr)
    (parse_count : N) : JSValue :=
  JSASTNode {| node_ := node; document_ := document;
               parse_count_ := parse_count |}.

(** Modelled from the spec: [ASTNodeArray::NewInstance], defined in
    [ast_node_array.cc], outside the sources.  It mints the collection view
    over a node's children, all of them or the named ones only, stamped
    like a handle. *)
Definition ASTNodeArray_NewInstance (node : TSNode) (document : TSDocumentPtr)
    (parse_count : N) (is_named : bool) : JSValue :=
  JSASTNodeArray node document parse_count is_named.

Section ast_node.
Context {E : Engine}.
Context {W : Type}.

Definition UnwrapValid (object : JSValue) : option ASTNode :=
  match Unwrap object with
  | Some node =>
      if (parse_count_ node =? ts_document_parse_count (document_ node))%N
      then Some node else None
  | None => None
  end.

Definition New (this : JSValue) (info : list JSValue) : Callback W unit :=
  SetReturnValue JSNull.

Definition ToString (this : JSValue) (info : list JSValue)
  : Callback W unit :=
  match UnwrapValid this with
  | Some node =>
      let string := ts_node_string (node_ node) (document_ node) in
      SetReturnValue (JSString string)
  | None => ret tt
  end.

Definition IsValid (this : JSValue) (info : list JSValue)
  : Callback W unit :=
  match Unwrap this with
  | Some node =>
      let result :=
        (parse_count_ node =? ts_document_parse_count (document_ node))%N in
      SetReturnValue (JSBoolean result)
  | None => ret tt
  end.

Definition NamedDescendantForIndex (this : JSValue) (info : list JSValue)
  : Callback W unit :=
  match UnwrapValid this with
  | Some node =>
      let finish (min max : N) : Callback W unit :=
        let result :=
          ts_node_named_descendant_for_byte_range (node_ node) min max in
        SetReturnValue
          (NewInstance result (document_ node) (parse_count_ node)) in
      match length info with
      | 1%nat =>
          maybe_value <- ByteIndexFromJSStringIndex (info_at info 0) ;;
          match maybe_value with
          | None => ret tt
          | Some value => finish value value
          end
      | 2%nat =>
          maybe_min <- ByteIndexFromJSStringIndex (info_at info 0) ;;
          maybe_max <- ByteIndexFromJSStringIndex (info_at info 1) ;;
          match maybe_min, maybe_max with
          | None, _ => ret tt
          | _, None => ret tt
          | Some min, Some max => finish min max
          end
      | _ => ThrowTypeError "Must provide 1 or 2 character indices"
      end
  | None => ret tt
  end.

Definition DescendantForIndex (this : JSValue) (info : list JSValue)
  : Callback W unit :=
  match UnwrapValid this with
  | Some node =>
      let finish (min max : N) : Callback W unit :=
        let result :=
          ts_node_descendant_for_byte_range (node_ node) min max in
        SetReturnValue
          (NewInstance result (document_ node) (parse_count_ node)) in
      match length info with
      | 1%nat =>
          maybe_value <- ByteIndexFromJSStringIndex (info_at info 0) ;;
          match maybe_value with
          | None => ret tt
          | Some value => finish value value
          end
      | 2%nat =>
          maybe_min <- ByteIndexFromJSStringIndex (info_at info 0) ;;
          maybe_max <- ByteIndexFromJSStringIndex (info_at info 1) ;;
          match maybe_min, maybe_max with
          | None, _ => ret tt
          | _, None => ret tt
          | Some min, Some max => finish min max
          end
      | _ => ThrowTypeError "Must provide 1 or 2 character indices"
      end
  | None => ret tt
  end.

Definition NamedDescendantForPosition (this : JSValue) (info : list JSValue)
  : Callback W unit :=
  match UnwrapValid this with
  | Some node =>
      let finish (min max : TSPoint) : Callback W unit :=
        let result :=
          ts_node_named_descendant_for_point_range (node_ node) min max in
        SetReturnValue
          (NewInstance result (document_ node) (parse_count_ node)) in
      match length info with
      | 1%nat =>
          value <- PointFromJS (info_at info 0) ;;
          match value with
          | None => ret tt
          | Some point => finish point point
          end
      | 2%nat =>
          maybe_min <- PointFromJS (info_at info 0) ;;
          maybe_max <- PointFromJS (info_at info 1) ;;
          match maybe_min, maybe_max with
          | None, _ => ret tt
          | _, None => ret tt
          | Some min, Some max => finish min max
          end
      | _ => ThrowTypeError "Must provide 1 or 2 points"
      end
  | None => ret tt
  end.

Definition DescendantForPosition (this : JSValue) (info : list JSValue)
  : Callback W unit :=
  match UnwrapValid this with
  | Some node =>
      let finish (min max : TSPoint) : Callback W unit :=
        let result :=
          ts_node_descendant_for_point_range (node_ node) min max in
        SetReturnValue
          (NewInstance result (document_ node) (parse_count_ node)) in
      match length info with
      | 1%nat =>
          value <- PointFromJS (info_at info 0) ;;
          match value with
          | None => ret tt
          | Some point => finish point point
          end
      | 2%nat =>
          maybe_min <- PointFromJS (info_at info 0) ;;
          maybe_max <- PointFromJS (info_at info 1) ;;
          match maybe_min, maybe_max with
          | None, _ => ret tt
          | _, None => ret tt
          | Some min, Some max => finish min max
          end
      | _ => ThrowTypeError "Must provide 1 or 2 points"
      end
  | None => ret tt
  end.

(** The getters take the receiver only. *)

Definition Type_ (this : JSValue) : Callback W unit :=
  match UnwrapValid this with
  | Some node =>
      let result := ts_node_type (node_ node) (document_ node) in
      SetReturnValue (JSString result)
  | None => SetReturnValue JSNull
  end.

Definition IsNamed (this : JSValue) : Callback W unit :=
  match UnwrapValid this with
  | Some node =>
      let result := ts_node_is_named (node_ node) in
      SetReturnValue (JSBoolean result)
  | None => SetReturnValue JSNull
  end.

Definition StartIndex (this : JSValue) : Callback W unit :=
  match UnwrapValid this with
  | Some node =>
      let result :=
        int32_of_size_t (ts_node_start_byte (node_ node) / 2)%N in
      SetReturnValue (JSNumber (Number_of_Z result))
  | None => SetReturnValue JSNull
  end.

Definition EndIndex (this : JSValue) : Callback W unit :=
  match UnwrapValid this with
  | Some node =>
      let result :=
        int32_of_size_t (ts_node_end_byte (node_ node) / 2)%N in
      SetReturnValue (JSNumber (Number_of_Z result))
  | None => SetReturnValue JSNull
  end.

Definition StartPosition (this : JSValue) : Callback W unit :=
  match UnwrapValid this with
  | Some node =>
      let result := ts_node_start_point (node_ node) in
      SetReturnValue (PointToJS result)
  | None => SetReturnValue JSNull
  end.

Definition EndPosition (this : JSValue) : Callback W unit :=
  match UnwrapValid this with
  | Some node =>
      let result := ts_node_end_point (node_ node) in
      SetReturnValue (PointToJS result)
  | None => SetReturnValue JSNull
  end.

Definition Children (this : JSValue) : Callback W unit :=
  match UnwrapValid this with
  | Some node =>
      SetReturnValue
        (ASTNodeArray_NewInstance (node_ node) (document_ node)
           (parse_count_ node) false)
  | None => SetReturnValue JSNull
  end.

Definition NamedChildren (this : JSValue) : Callback W unit :=
  match UnwrapValid this with
  | Some node =>
      SetReturnValue
        (ASTNodeArray_NewInstance (node_ node) (document_ node)
           (parse_count_ node) true)
  | None => SetReturnValue JSNull
  end.

Definition Parent (this : JSValue) : Callback W unit :=
  match UnwrapValid this with
  | Some node =>
      let parent := ts_node_parent (node_ node) in
      if data parent =? 0 then SetReturnValue JSNull
      else SetReturnValue
             (NewInstance parent (document_ node) (parse_count_ node))
  | None => SetReturnValue JSNull
  end.

Definition NextSibling (this : JSValue) : Callback W unit :=
  match UnwrapValid this with
  | Some node =>
      let sibling := ts_node_next_sibling (node_ node) in
      if data sibling =? 0 then SetReturnValue JSNull
      else SetReturnValue
             (NewInstance sibling (document_ node) (parse_count_ node))
  | None => SetReturnValue JSNull
  end.

Definition NextNamedSibling (this : JSValue) : Callback W unit :=
  match UnwrapValid this with
  | Some node =>
      let sibling := ts_node_next_named_sibling (node_ node) in
      if data sibling =? 0 then SetReturnValue JSNull
      else SetReturnValue
             (NewInstance sibling (document_ node) (parse_count_ node))
  | None => SetReturnValue JSNull
  end.

Definition PreviousSibling (this : JSValue) : Callback W unit :=
  match UnwrapValid this with
  | Some node =>
      let sibling := ts_node_prev_sibling (node_ node) in
      if data sibling =? 0 then SetReturnValue JSNull
      else SetReturnValue
             (NewInstance sibling (document_ node) (parse_count_ node))
  | None => SetReturnValue JSNull
  end.

Definition PreviousNamedSibling (this : JSValue) : Callback W unit :=
  match UnwrapValid this with
  | Some node =>
      let sibling := ts_node_prev_named_sibling (node_ node) in
      if data sibling =? 0 then SetReturnValue JSNull
      else SetReturnValue
             (NewInstance sibling (document_ node) (parse_count_ node))
  | None => SetReturnValue JSNull
  end.

(** The tables [ASTNode::Init] registers on the class template. *)

Definition enum_getters : list (string * (JSValue -> Callback W unit)) :=
  [ ("startIndex", StartIndex);
    ("startPosition", StartPosition);
    ("endIndex", EndIndex);
    ("endPosition", EndPosition);
    ("type", Type_);
    ("isNamed", IsNamed) ].

Definition non_enum_getters
  : list (string * (JSValue -> Callback W unit)) :=
  [ ("parent", Parent);
    ("children", Children);
    ("namedChildren", NamedChildren);
    ("nextSibling", NextSibling);
    ("nextNamedSibling", NextNamedSibling);
    ("previousSibling", PreviousSibling);
    ("previousNamedSibling", PreviousNamedSibling) ].

Definition methods
  : list (string * (JSValue -> list JSValue -> Callback W unit)) :=
  [ ("isValid", IsValid);
    ("toString", ToString);
    ("descendantForIndex", DescendantForIndex);
    ("namedDescendantForIndex", NamedDescendantForIndex);
    ("descendantForPosition", DescendantForPosition);
    ("namedDescendantForPosition", NamedDescendantForPosition) ].

End ast_node.

(** ** The runtime and the heap, as the document sees them *)

Inductive TSInputEncoding :=
| TSInputEncodingUTF8
| TSInputEncodingUTF16.

(** The function pointers a [TSInput] can hold. *)
Inductive InputFunction :=
| fn_null
| InputReader_Read
| InputReader_Seek.

Record TSInput := {
  payload : Z;
  read : InputFunction;
  seek : InputFunction;
  encoding : TSInputEncoding
}.

(** Modelled from the spec: the adapter class of [input_reader.h], outside
    the sources; [object] is the host source it holds a reference to. *)
Record InputReader := { object : JSValue }.

(** Modelled from the spec: [InputReader::Input()], whose definition is in
    [input_reader.h], outside the sources.  The adapter installs itself as
    the payload of the seek/read pair it hands to the runtime, which is
    also how [document.cc] reads an installed input back
    ([(InputReader * ) input.payload], [seek == InputReader::Seek]). *)
Definition InputReader_Input (this : Z) : TSInput :=
  {| payload := this; read := InputReader_Read; seek := InputReader_Seek;
     encoding := TSInputEncodingUTF16 |}.

(** Modelled from the spec: the runtime's document, as far as [document.cc]
    relies on it.  It keeps the input it was last given
    ([ts_document_set_input] / [ts_document_input]) and is handed edit
    descriptors ([ts_document_edit]), kept here in the order received. *)
Record TSDocument := {
  input : TSInput;
  edits : list TSInputEdit
}.

(** What a [Document] callback can change: the runtime document behind
    [document_], and the [InputReader] objects on the C++ heap.  [readers]
    holds the live adapters by address, [deleted] logs every [delete], and
    [next_address] is the address the next [new] returns. *)
Record World := {
  ts_document : TSDocument;
  ts_document_freed : bool;
  readers : gmap Z InputReader;
  deleted : list Z;
  next_address : Z
}.

Definition ts_document_new : TSDocument :=
  {| input := {| payload := 0; read := fn_null; seek := fn_null;
                 encoding := TSInputEncodingUTF8 |};
     edits := [] |}.

Definition ts_document_input (w : World) : TSInput := input (ts_document w).

Definition ts_document_set_input (i : TSInput) (w : World) : World :=
  {| ts_document := {| input := i; edits := edits (ts_document w) |};
     ts_document_freed := ts_document_freed w;
     readers := readers w; deleted := deleted w;
     next_address := next_address w |}.

Definition ts_document_edit (edit : TSInputEdit) (w : World) : World :=
  {| ts_document := {| input := input (ts_document w);
                       edits := edits (ts_document w) ++ [edit] |};
     ts_document_freed := ts_document_freed w;
     readers := readers w; deleted := deleted w;
     next_address := next_address w |}.

Definition ts_document_free (w : World) : World :=
  {| ts_document := ts_document w; ts_document_freed := true;
     readers := readers w; deleted := deleted w;
     next_address := next_address w |}.

(** [new InputReader(object)]. *)
Definition new_InputReader (source : JSValue) (w : World) : Z * World :=
  (next_address w,
   {| ts_document := ts_document w;
      ts_document_freed := ts_document_freed w;
      readers := <[next_address w := {| object := source |}]> (readers w);
      deleted := deleted w;
      next_address := next_address w + 1 |}).

(** [delete (InputReader * ) p]. *)
Definition delete_InputReader (p : Z) (w : World) : World :=
  {| ts_document := ts_document w;
     ts_document_freed := ts_document_freed w;
     readers := delete p (readers w);
     deleted := p :: deleted w;
     next_address := next_address w |}.

(** A world function run inside a callback. *)
Definition in_world {A} (f : World -> A * World) : Callback World A :=
  w <- get_world ;;
  put_world (snd (f w)) ;;
  ret (fst (f w)).

Definition on_world (f : World -> World) : Callback World unit :=
  w <- get_world ;;
  put_world (f w).

(** ** document.cc *)

(** [Document::Document()]: a fresh runtime document; nothing on the heap
    yet. *)
Definition Document_new : World :=
  {| ts_document := ts_document_new; ts_document_freed := false;
     readers := ∅; deleted := []; next_address := 1 |}.

(** [Document::~Document()]. *)
Definition Document_delete (w : World) : World :=
  let input := ts_document_input w in
  let w := if payload input =? 0 then w
           else delete_InputReader (payload input) w in
  ts_document_free w.

Definition SetInput (this : JSValue) (info : list JSValue)
  : Callback World unit :=
  let input := info_at info 0 in
  SetReturnValue this ;;
  if IsNull input || IsFalse input || IsUndefined input then
    on_world (ts_document_set_input
                {| payload := 0; read := fn_null; seek := fn_null;
                   encoding := TSInputEncodingUTF16 |})
  else if negb (IsObject input) then
    ThrowTypeError "Input must be an object"
  else if negb (IsFunction (Get input "seek")) then
    ThrowTypeError "Input must implement seek(n)"
  else if negb (IsFunction (Get input "read")) then
    ThrowTypeError "Input must implement read(n)"
  else
    current_input <- in_world (fun w => (ts_document_input w, w)) ;;
    input_reader <- in_world (new_InputReader input) ;;
    on_world (ts_document_set_input (InputReader_Input input_reader)) ;;
    (if payload current_input =? 0 then ret tt
     else on_world (delete_InputReader (payload current_input))) ;;
    SetReturnValue this.

(** [arg->Get] is called on [info[0]] without a check that it is an object;
    the embedding follows the source for object arguments.  For an absent,
    [null], [undefined] or other non-object argument the source has no
    defined outcome (it dereferences an empty handle), and what this
    definition computes there stands for nothing: the properties of [Edit]
    assume an object. *)
Definition Edit (this : JSValue) (info : list JSValue)
  : Callback World unit :=
  let arg := info_at info 0 in
  let position := Get arg "position" in
  let edit_position :=
    if IsNumber position then size_t_of_int (Int32Value position)
    else 0%N in
  let chars_removed := Get arg "charsRemoved" in
  let edit_chars_removed :=
    if IsNumber chars_removed then size_t_of_int (Int32Value chars_removed)
    else 0%N in
  let chars_inserted := Get arg "charsInserted" in
  let edit_chars_inserted :=
    if IsNumber chars_inserted then size_t_of_int (Int32Value chars_inserted)
    else 0%N in
  on_world (ts_document_edit
              {| position := edit_position;
                 chars_inserted := edit_chars_inserted;
                 chars_removed := edit_chars_removed |}) ;;
  SetReturnValue this.

(** ** A small runtime to run the handles against *)

(** A parsed two-unit text: a root over bytes [0,4) with one leaf per unit,
    [0,2) and [2,4).  Node pointers are 1 (root), 2 and 3; the parse counter
    of every document stands at 1. *)
Definition toy_node (d : Z) : TSNode := {| data := d; engine_private := 0 |}.

Definition toy_start_byte (n : TSNode) : N :=
  match data n with 3 => 2%N | _ => 0%N end.

Definition toy_end_byte (n : TSNode) : N :=
  match data n with 2 => 2%N | _ => 4%N end.

Definition toy_point (b : N) : TSPoint := {| row := 0; column := b |}.

Definition toy_parent (n : TSNode) : TSNode :=
  match data n with 2 | 3 => toy_node 1 | _ => toy_node 0 end.

Definition toy_next (n : TSNode) : TSNode :=
  match data n with 2 => toy_node 3 | _ => toy_node 0 end.

Definition toy_prev (n : TSNode) : TSNode :=
  match data n with 3 => toy_node 2 | _ => toy_node 0 end.

Definition toy_descendant (n : TSNode) (min max : N) : TSNode :=
  if data n =? 1 then
    if (max <? 2)%N then toy_node 2
    else if ((2 <=? min) && (max <? 4))%N then toy_node 3
    else n
  else n.

Definition toy_engine : Engine :=
  {| ts_document_parse_count := fun _ => 1%N;
     ts_node_string := fun _ _ => "(text (unit) (unit))";
     ts_node_type := fun n _ => if data n =? 1 then "text" else "unit";
     ts_node_is_named := fun _ => true;
     ts_node_start_byte := toy_start_byte;
     ts_node_end_byte := toy_end_byte;
     ts_node_start_point := fun n => toy_point (toy_start_byte n);
     ts_node_end_point := fun n => toy_point (toy_end_byte n);
     ts_node_parent := toy_parent;
     ts_node_next_sibling := toy_next;
     ts_node_next_named_sibling := toy_next;
     ts_node_prev_sibling := toy_prev;
     ts_node_prev_named_sibling := toy_prev;
     ts_node_descendant_for_byte_range := toy_descendant;
     ts_node_named_descendant_for_byte_range := toy_descendant;
     ts_node_descendant_for_point_range :=
       fun n min max => toy_descendant n (column min) (column max);
     ts_node_named_descendant_for_point_range :=
       fun n min max => toy_descendant n (column min) (column max) |}.

(** The root handle minted at parse count 1, and the same handle as it
    looks once the counter has moved on. *)
Definition toy_root_node : ASTNode :=
  {| node_ := toy_node 1; document_ := 100; parse_count_ := 1 |}.

Definition toy_stale_node : ASTNode :=
  {| node_ := toy_node 1; document_ := 100; parse_count_ := 0 |}.

Definition toy_root : JSValue := JSASTNode toy_root_node.
Definition toy_stale : JSValue := JSASTNode toy_stale_node.

(** The doubles 0, 1 and 3 in binary64 form. *)
Definition double_0 : spec_float := S754_zero false.
Definition double_1 : spec_float := S754_finite false 4503599627370496 (-52).
Definition double_3 : spec_float := S754_finite false 6755399441055744 (-51).

Definition js_object (fields : list (string * JSValue)) : JSValue :=
  JSObject (list_to_map fields).

(** A host source with callable [seek] and [read]. *)
Definition host_source (id : nat) : JSValue :=
  js_object [("seek", JSFunction id); ("read", JSFunction (S id))].

(** Sample arguments. *)

Definition this_document : JSValue := JSDocument 100.

(** [{position: 3, charsRemoved: 1, charsInserted: 1}]. *)
Definition descriptor_3_1_1 : JSValue :=
  js_object [("position", JSNumber double_3);
             ("charsRemoved", JSNumber double_1);
             ("charsInserted", JSNumber double_1)].

(** [{position: "x"}]: a non-numeric position, the counts absent. *)
Definition descriptor_bad : JSValue :=
  js_object [("position", JSString "x")].

(** [{row: "a", column: 0}]. *)
Definition point_bad_row : JSValue :=
  js_object [("row", JSString "a"); ("column", JSNumber double_0)].

(** [setInput(source); setInput(null)] on a new document, which is then
    destroyed. *)
Definition reset_scenario : World :=
  let w1 := snd (call (SetInput this_document [host_source 0]) Document_new) in
  let w2 := snd (call (SetInput this_document [JSNull]) w1) in
  Document_delete w2.

(** [setInput(source); setInput(other)] on a new document, which is then
    destroyed. *)
Definition replace_scenario : World :=
  let w1 := snd (call (SetInput this_document [host_source 0]) Document_new) in
  let w2 := snd (call (SetInput this_document [host_source 2]) w1) in
  Document_delete w2.

(** [setInput] called with each of [sources] in turn. *)
Definition SetInput_each (this : JSValue) (sources : list JSValue)
    (w : World) : World :=
  foldl (fun w source => snd (call (SetInput this [source]) w)) w sources.

(** The bookkeeping that makes every adapter die exactly once: the only
    live adapter is the installed one, and the adapters allocated so far,
    the installed one apart, are those that were deleted, each once. *)
Record adapters_accounted (w : World) : Prop := {
  next_address_positive : 1 <= next_address w;
  installed_in_range :
    payload (ts_document_input w) = 0
    \/ 1 <= payload (ts_document_input w) < next_address w;
  live_is_installed : forall a,
    is_Some (readers w !! a)
    <-> a = payload (ts_document_input w) /\ a <> 0;
  deleted_once : NoDup (deleted w);
  deleted_are_replaced : forall a,
    a ∈ deleted w
    <-> 1 <= a < next_address w /\ a <> payload (ts_document_input w)
}.

(** ** document.cc: reading the input back *)

Definition InputFunction_eqb (f g : InputFunction) : bool :=
  match f, g with
  | fn_null, fn_null => true
  | InputReader_Read, InputReader_Read => true
  | InputReader_Seek, InputReader_Seek => true
  | _, _ => false
  end.

(** [Document::GetInput].  The source casts the payload to an
    [InputReader *] and reads its [object]; a payload that names no live
    adapter has no defined behaviour there and leaves the call without a
    result here. *)
Definition GetInput (this : JSValue) (info : list JSValue)
  : Callback World unit :=
  current_input <- in_world (fun w => (ts_document_input w, w)) ;;
  if negb (payload current_input =? 0)
     && InputFunction_eqb (seek current_input) InputReader_Seek then
    input <- in_world (fun w => (readers w !! payload current_input, w)) ;;
    match input with
    | Some input => SetReturnValue (object input)
    | None => ret tt
    end
  else
    SetReturnValue JSNull.

(** The methods of [Document::Init]'s table that act on the input and the
    edits. *)
Definition world_methods
  : list (string * (JSValue -> list JSValue -> Callback World unit)) :=
  [ ("getInput", GetInput);
    ("setInput", SetInput);
    ("edit", Edit) ].

(** The worlds a document can be in: a new document, then any calls of
    these methods with any receiver and arguments. *)
Inductive reachable : World -> Prop :=
| reachable_new : reachable Document_new
| reachable_call (name : string)
    (method : JSValue -> list JSValue -> Callback World unit)
    (this : JSValue) (info : list JSValue) (w : World) :
    (name, method) ∈ world_methods ->
    reachable w ->
    reachable (snd (call (method this info) w)).

(** What holds of the heap in every reachable world: addresses come from
    the allocator, a deleted adapter is gone and was deleted once, and the
    installed payload, if any, is a live adapter installed with
    [InputReader::Seek]. *)
Record heap_sound (w : World) : Prop := {
  sound_next : 1 <= next_address w;
  sound_live : forall a, is_Some (readers w !! a) -> 1 <= a < next_address w;
  sound_deleted : forall a,
    a ∈ deleted w -> 1 <= a < next_address w /\ readers w !! a = None;
  sound_once : NoDup (deleted w);
  sound_installed :
    payload (ts_document_input w) = 0
    \/ (is_Some (readers w !! payload (ts_document_input w))
        /\ seek (ts_document_input w) = InputReader_Seek)
}.

(** ** document.cc: the logger *)

Inductive LogFunction :=
| log_null
| Logger_Log.

Definition LogFunction_eqb (f g : LogFunction) : bool :=
  match f, g with
  | log_null, log_null => true
  | Logger_Log, Logger_Log => true
  | _, _ => false
  end.

Module Logging.

(** [TSLogger], by the two fields [document.cc] reads. *)
Record TSLogger := { payload : Z; log : LogFunction }.

(** Modelled from the spec: the adapter class of [logger.h], outside the
    sources; [func] is the host callback it holds a reference to. *)
Record Logger := { func : JSValue }.

End Logging.

(** The document with its logger: the world of the input and the edits, the
    logger the runtime was last given, and the [Logger] objects on the C++
    heap, kept like the [InputReader] objects are. *)
Record DocumentState := {
  input_world : World;
  ts_logger : Logging.TSLogger;
  loggers : gmap Z Logging.Logger;
  deleted_loggers : list Z;
  next_logger_address : Z
}.

Definition ts_document_logger (s : DocumentState) : Logging.TSLogger :=
  ts_logger s.

Definition ts_document_set_logger (l : Logging.TSLogger) (s : DocumentState)
  : DocumentState :=
  {| input_world := input_world s; ts_logger := l; loggers := loggers s;
     deleted_loggers := deleted_loggers s;
     next_logger_address := next_logger_address s |}.

(** [delete (Logger * ) p]. *)
Definition delete_Logger (p : Z) (s : DocumentState) : DocumentState :=
  {| input_world := input_world s; ts_logger := ts_logger s;
     loggers := delete p (loggers s);
     deleted_loggers := p :: deleted_loggers s;
     next_logger_address := next_logger_address s |}.

(** Modelled from the spec: [Logger::Make(func)], defined in [logger.h],
    outside the sources.  It allocates the adapter for the callback and
    gives the runtime logger whose payload is that adapter and whose
    function is [Logger::Log], which is how [Document::GetLogger] reads an
    installed logger back. *)
Definition Logger_Make (callback : JSValue) (s : DocumentState)
  : Logging.TSLogger * DocumentState :=
  ({| Logging.payload := next_logger_address s; Logging.log := Logger_Log |},
   {| input_world := input_world s; ts_logger := ts_logger s;
      loggers := <[next_logger_address s := {| Logging.func := callback |}]>
                   (loggers s);
      deleted_loggers := deleted_loggers s;
      next_logger_address := next_logger_address s + 1 |}).

(** Reading and changing the state from inside a callback. *)
Definition gets {W A} (f : W -> A) : Callback W A :=
  w <- get_world ;;
  ret (f w).

Definition modify {W} (f : W -> W) : Callback W unit :=
  w <- get_world ;;
  put_world (f w).

(** [Document::Document()], with no logger. *)
Definition DocumentState_new : DocumentState :=
  {| input_world := Document_new;
     ts_logger := {| Logging.payload := 0; Logging.log := log_null |};
     loggers := ∅; deleted_loggers := []; next_logger_address := 1 |}.

(** [Document::~Document()] on the whole state: the destructor deletes the
    input's adapter and frees the runtime document; it has no statement for
    the logger. *)
Definition Document_destroy (s : DocumentState) : DocumentState :=
  {| input_world := Document_delete (input_world s);
     ts_logger := ts_logger s; loggers := loggers s;
     deleted_loggers := deleted_loggers s;
     next_logger_address := next_logger_address s |}.

Definition GetLogger (this : JSValue) (info : list JSValue)
  : Callback DocumentState unit :=
  current_logger <- gets ts_document_logger ;;
  if negb (Logging.payload current_logger =? 0)
     && LogFunction_eqb (Logging.log current_logger) Logger_Log then
    logger <- gets (fun s => loggers s !! Logging.payload current_logger) ;;
    match logger with
    | Some logger => SetReturnValue (Logging.func logger)
    | None => ret tt
    end
  else
    SetReturnValue JSNull.

Definition SetLogger (this : JSValue) (info : list JSValue)
  : Callback DocumentState unit :=
  let func := info_at info 0 in
  current_logger <- gets ts_document_logger ;;
  (if Logging.payload current_logger =? 0 then ret tt
   else modify (delete_Logger (Logging.payload current_logger))) ;;
  if IsFunction func then
    made <- gets (fun s => fst (Logger_Make func s)) ;;
    modify (fun s => snd (Logger_Make func s)) ;;
    modify (ts_document_set_logger made) ;;
    SetReturnValue this
  else
    modify (ts_document_set_logger
              {| Logging.payload := 0; Logging.log := log_null |}) ;;
    if negb (IsNull func || IsFalse func || IsUndefined func) then
      ThrowTypeError
        "Debug callback must either be a function or a falsy value"
    else
      SetReturnValue this.

Definition logger_methods
  : list (string * (JSValue -> list JSValue -> Callback DocumentState unit)) :=
  [ ("getLogger", GetLogger);
    ("setLogger", SetLogger) ].

(** The states a document's logger can be in: a new document, then any
    calls of these two methods. *)
Inductive logger_reachable : DocumentState -> Prop :=
| logger_reachable_new : logger_reachable DocumentState_new
| logger_reachable_call (name : string)
    (method : JSValue -> list JSValue -> Callback DocumentState unit)
    (this : JSValue) (info : list JSValue) (s : DocumentState) :
    (name, method) ∈ logger_methods ->
    logger_reachable s ->
    logger_reachable (snd (call (method this info) s)).

(** Every logger adapter allocated so far is either the installed one,
    which is live, or has been deleted, once. *)
Record loggers_accounted (s : DocumentState) : Prop := {
  logger_next : 1 <= next_logger_address s;
  logger_installed :
    Logging.payload (ts_logger s) = 0
    \/ (1 <= Logging.payload (ts_logger s) < next_logger_address s
        /\ Logging.log (ts_logger s) = Logger_Log);
  logger_live : forall a,
    is_Some (loggers s !! a)
    <-> a = Logging.payload (ts_logger s) /\ a <> 0;
  logger_once : NoDup (deleted_loggers s);
  logger_deleted : forall a,
    a ∈ deleted_loggers s
    <-> 1 <= a < next_logger_address s /\ a <> Logging.payload (ts_logger s)
}.

(** ** document.cc: the root handle *)

Section root_node.
Context {E : Engine}.
Context {W : Type}.

(** [ts_document_root_node], the one runtime query of [Document::RootNode]
    that the handles do not use. *)
Variable ts_document_root_node : TSDocumentPtr -> TSNode.

(** [ObjectWrap::Unwrap<Document>(info.This())->document_]. *)
Definition Document_document_ (object : JSValue) : option TSDocumentPtr :=
  match object with
  | JSDocument document => Some document
  | _ => None
  end.

(** [Document::RootNode].  The source does not test the unwrapped receiver;
    the embedding follows it for receivers that are documents. *)
Definition RootNode (this : JSValue) : Callback W unit :=
  match Document_document_ this with
  | Some document =>
      let node := ts_document_root_node document in
      let parse_count := ts_document_parse_count document in
      if data node =? 0 then SetReturnValue JSNull
      else SetReturnValue (NewInstance node document parse_count)
  | None => ret tt
  end.

End root_node.

(** More sample values. *)

(** The root that goes with [toy_engine]. *)
Definition toy_root_of (document : TSDocumentPtr) : TSNode := toy_node 1.

(** A wrapper around a null node, stamped with the current parse count. *)
Definition toy_null_node : ASTNode :=
  {| node_ := toy_node 0; document_ := 100; parse_count_ := 1 |}.
Definition toy_null : JSValue := JSASTNode toy_null_node.

(** The leaf over bytes [2,4) of the sample tree, as a handle. *)
Definition toy_leaf_node : ASTNode :=
  {| node_ := toy_node 3; document_ := 100; parse_count_ := 1 |}.
Definition toy_leaf : JSValue := JSASTNode toy_leaf_node.

(** The double -1. *)
Definition double_minus_1 : spec_float :=
  S754_finite true 4503599627370496 (-52).

(** [{position: -1}]. *)
Definition descriptor_negative : JSValue :=
  js_object [("position", JSNumber double_minus_1)].

(** A host logging callback. *)
Definition host_callback : JSValue := JSFunction 7.

(** [setLogger(callback)] on a new document. *)
Definition logging_state : DocumentState :=
  snd (call (SetLogger this_document [host_callback]) DocumentState_new).

(** What [Document::SetLogger] does first, whatever its argument is: it
    deletes the adapter of the logger that is installed. *)
Definition after_delete (s : DocumentState) : DocumentState :=
  if Logging.payload (ts_logger s) =? 0 then s
  else delete_Logger (Logging.payload (ts_logger s)) s.

(** The world after [setInput(source)] on a new document. *)
Definition world_with_input : World :=
  snd (call (SetInput this_document [host_source 0]) Document_new).

(** * Properties *)

(** ** Integer conversions *)

Lemma int32_wrap_small (z : Z) :
  - 2 ^ 31 <= z < 2 ^ 31 -> int32_wrap z = z.
Proof.
  intros Hz. unfold int32_wrap.
  rewrite Z.mod_small by lia. lia.
Qed.

Lemma int32_wrap_range (z : Z) : - 2 ^ 31 <= int32_wrap z < 2 ^ 31.
Proof.
  unfold int32_wrap.
  pose proof (Z.mod_pos_bound (z + 2 ^ 31) (2 ^ 32) ltac:(lia)). lia.
Qed.

Lemma size_t_of_int_nonneg (z : Z) :
  0 <= z < 2 ^ 64 -> size_t_of_int z = Z.to_N z.
Proof.
  intros Hz. unfold size_t_of_int. now rewrite Z.mod_small.
Qed.

Lemma int32_of_size_t_small (n : N) :
  (n < 2 ^ 31)%N -> int32_of_size_t n = Z.of_N n.
Proof.
  intros Hn. unfold int32_of_size_t. apply int32_wrap_small.
  change (2 ^ 31)%N with (Z.to_N (2 ^ 31)) in Hn. lia.
Qed.

(** [Number_of_Z] builds the Number whose integer value is its argument. *)
Lemma ToInt32_Number_of_Z (z : Z) :
  - 2 ^ 31 <= z < 2 ^ 31 -> ToInt32 (Number_of_Z z) = z.
Proof.
  intros Hz. destruct z as [|m|m]; cbn [Number_of_Z ToInt32]; try reflexivity.
  - rewrite Z.shiftl_0_r. apply int32_wrap_small. lia.
  - rewrite Z.shiftl_0_r. apply int32_wrap_small. lia.
Qed.

(** A byte index built from an external index in [0, 2^30) is twice it. *)
Lemma byte_index_double (f : spec_float) :
  0 <= ToInt32 f < 2 ^ 30 ->
  size_t_of_int (int32_wrap (Int32Value (JSNumber f) * 2))
  = Z.to_N (ToInt32 f * 2).
Proof.
  intros Hf. cbn [Int32Value].
  rewrite int32_wrap_small by lia.
  apply size_t_of_int_nonneg. lia.
Qed.

(** ** Running callbacks *)

Lemma invoke_ret : invoke (ret tt) = Returns JSUndefined.
Proof. reflexivity. Qed.

Lemma invoke_SetReturnValue (v : JSValue) :
  invoke (SetReturnValue v) = Returns v.
Proof. reflexivity. Qed.

Lemma invoke_ThrowTypeError (msg : string) :
  invoke (ThrowTypeError msg) = Throws (TypeError msg).
Proof. reflexivity. Qed.

Lemma info_at_0 (a : JSValue) (l : list JSValue) : info_at (a :: l) 0 = a.
Proof. reflexivity. Qed.

Lemma info_at_1 (a b : JSValue) (l : list JSValue) :
  info_at (a :: b :: l) 1 = b.
Proof. reflexivity. Qed.

Lemma Get_absent (k : string) (props : gmap string JSValue) :
  props !! k = None -> Get (JSObject props) k = JSUndefined.
Proof. intros H. cbn. now rewrite H. Qed.

Section handle_properties.
Context {E : Engine}.

(** ** The validity gate *)

Lemma Unwrap_inv (this : JSValue) (node : ASTNode) :
  Unwrap this = Some node ->
  this = JSASTNode node /\ data (node_ node) <> 0.
Proof.
  unfold Unwrap, ObjectWrap_Unwrap.
  destruct this as [| | | | | | |n| |]; try discriminate.
  destruct (Z.eqb_spec (data (node_ n)) 0); [discriminate|].
  intros [= ->]. auto.
Qed.

Lemma UnwrapValid_inv (this : JSValue) (node : ASTNode) :
  UnwrapValid this = Some node ->
  Unwrap this = Some node
  /\ parse_count_ node = ts_document_parse_count (document_ node).
Proof.
  unfold UnwrapValid. destruct (Unwrap this) as [n|]; [|discriminate].
  destruct (N.eqb_spec (parse_count_ n)
              (ts_document_parse_count (document_ n))); [|discriminate].
  intros [= <-]. auto.
Qed.

Lemma UnwrapValid_stale (this : JSValue) (node : ASTNode) :
  ObjectWrap_Unwrap this = Some node ->
  parse_count_ node <> ts_document_parse_count (document_ node) ->
  UnwrapValid this = None.
Proof.
  intros Hw Hne. unfold UnwrapValid, Unwrap. rewrite Hw.
  destruct (data (node_ node) =? 0); [reflexivity|].
  destruct (N.eqb_spec (parse_count_ node)
              (ts_document_parse_count (document_ node))); congruence.
Qed.

Lemma UnwrapValid_current (this : JSValue) (node : ASTNode) :
  Unwrap this = Some node ->
  parse_count_ node = ts_document_parse_count (document_ node) ->
  UnwrapValid this = Some node.
Proof.
  intros Hu Heq. unfold UnwrapValid. rewrite Hu.
  now rewrite (proj2 (N.eqb_eq _ _) Heq).
Qed.

(** ** isValid *)

(** C4. [isValid()] never throws, and on a handle (an object that wraps a
    node) it returns exactly the boolean "the parse count captured when
    the handle was made equals the document's current parse count".  An
    object that wraps no node gets no return value. *)
Theorem IsValid_reports_version_equality
    (this : JSValue) (info : list JSValue) :
  (forall e, invoke (IsValid this info) <> Throws e)
  /\ (forall node, Unwrap this = Some node ->
        invoke (IsValid this info)
        = Returns (JSBoolean
                     (bool_decide
                        (parse_count_ node
                         = ts_document_parse_count (document_ node)))))
  /\ (Unwrap this = None -> invoke (IsValid this info) = Returns JSUndefined).
Proof.
  split; [|split].
  - intros e. unfold IsValid.
    destruct (Unwrap this); discriminate.
  - intros node Hu. unfold IsValid. rewrite Hu.
    rewrite invoke_SetReturnValue. do 2 f_equal.
    destruct (N.eqb_spec (parse_count_ node)
                (ts_document_parse_count (document_ node))) as [Heq|Hne].
    + now rewrite bool_decide_eq_true_2.
    + now rewrite bool_decide_eq_false_2.
  - intros Hu. unfold IsValid. rewrite Hu. apply invoke_ret.
Qed.

(** ** Stale handles *)

Ltac stale_getter H := cbv beta delta [StartIndex EndIndex StartPosition
  EndPosition Type_ IsNamed Parent Children NamedChildren NextSibling
  NextNamedSibling PreviousSibling PreviousNamedSibling];
  rewrite H; apply invoke_SetReturnValue.

(** C5. On a handle whose captured parse count differs from the
    document's, every enumerable getter and every navigation getter
    yields [null] and raises nothing, and [toString()] yields
    [undefined]. *)
Theorem stale_accessors_yield_absent (this : JSValue) (node : ASTNode) :
  ObjectWrap_Unwrap this = Some node ->
  parse_count_ node <> ts_document_parse_count (document_ node) ->
  (forall name getter,
      (name, getter) ∈ enum_getters ++ non_enum_getters ->
      invoke (getter this) = Returns JSNull)
  /\ (forall info, invoke (ToString this info) = Returns JSUndefined).
Proof.
  intros Hw Hne.
  pose proof (UnwrapValid_stale this node Hw Hne) as Hs.
  split.
  - intros name getter Hin.
    unfold enum_getters, non_enum_getters in Hin. cbn [app] in Hin.
    repeat (apply elem_of_cons in Hin as [[= _ ->]|Hin];
            [stale_getter Hs|]).
    now apply elem_of_nil in Hin.
  - intros info. unfold ToString. rewrite Hs. apply invoke_ret.
Qed.

(** C9. On a stale handle the four range queries return [undefined]
    whatever the arguments are: the validity gate comes first, so a wrong
    arity or a wrong argument type raises nothing. *)
Theorem stale_queries_ignore_arguments
    (this : JSValue) (node : ASTNode) (info : list JSValue) :
  ObjectWrap_Unwrap this = Some node ->
  parse_count_ node <> ts_document_parse_count (document_ node) ->
  invoke (DescendantForIndex this info) = Returns JSUndefined
  /\ invoke (NamedDescendantForIndex this info) = Returns JSUndefined
  /\ invoke (DescendantForPosition this info) = Returns JSUndefined
  /\ invoke (NamedDescendantForPosition this info) = Returns JSUndefined.
Proof.
  intros Hw Hne.
  pose proof (UnwrapValid_stale this node Hw Hne) as Hs.
  unfold DescendantForIndex, NamedDescendantForIndex,
    DescendantForPosition, NamedDescendantForPosition.
  rewrite Hs. auto using invoke_ret.
Qed.

(** ** Index queries on valid handles *)

Ltac index_query H :=
  unfold DescendantForIndex, NamedDescendantForIndex; rewrite H.

(** C7. On a valid handle, [descendantForIndex] and
    [namedDescendantForIndex] called with no argument or with three or
    more raise the arity error (the TypeError "Must provide 1 or 2
    character indices"); called with one or two arguments of which one is
    not a number they raise the type error (the TypeError "Character index
    must be a number"). *)
Theorem index_query_argument_errors
    (this : JSValue) (node : ASTNode) (info : list JSValue) :
  UnwrapValid this = Some node ->
  ((length info = 0 \/ 3 <= length info)%nat ->
     invoke (DescendantForIndex this info)
     = Throws (TypeError "Must provide 1 or 2 character indices")
     /\ invoke (NamedDescendantForIndex this info)
        = Throws (TypeError "Must provide 1 or 2 character indices"))
  /\ ((1 <= length info <= 2)%nat ->
      (exists v, v ∈ info /\ IsNumber v = false) ->
      invoke (DescendantForIndex this info)
      = Throws (TypeError "Character index must be a number")
      /\ invoke (NamedDescendantForIndex this info)
         = Throws (TypeError "Character index must be a number")).
Proof.
  intros Hv. split.
  - intros Hlen. index_query Hv.
    destruct info as [|a [|b [|c l]]]; cbn [length] in *;
      try lia; split; reflexivity.
  - intros Hlen (v & Hin & Hnum). index_query Hv.
    destruct info as [|a [|b [|c l]]]; cbn [length] in *; try lia.
    + apply list_elem_of_singleton in Hin as ->.
      rewrite info_at_0. unfold ByteIndexFromJSStringIndex.
      rewrite Hnum. split; reflexivity.
    + rewrite info_at_0, info_at_1. unfold ByteIndexFromJSStringIndex.
      apply elem_of_cons in Hin as [->|Hin].
      * rewrite Hnum. destruct (IsNumber b); split; reflexivity.
      * apply list_elem_of_singleton in Hin as ->.
        rewrite Hnum. destruct (IsNumber a); split; reflexivity.
Qed.

(** C8. A single index argument is the range from that index to itself:
    [descendantForIndex(i)] and [descendantForIndex(i, i)] have the same
    outcome (the same node, wrapped with the same document and parse
    count), and so have the named variants, for every receiver and every
    argument. *)
Theorem single_index_is_degenerate_range (this i : JSValue) :
  invoke (DescendantForIndex this [i])
  = invoke (DescendantForIndex this [i; i])
  /\ invoke (NamedDescendantForIndex this [i])
     = invoke (NamedDescendantForIndex this [i; i]).
Proof.
  unfold DescendantForIndex, NamedDescendantForIndex.
  destruct (UnwrapValid this) as [node|]; [|split; reflexivity].
  cbn [length]. rewrite !info_at_0, info_at_1.
  unfold ByteIndexFromJSStringIndex.
  destruct (IsNumber i); split; reflexivity.
Qed.

(** ** The unit width *)

Lemma index_query_two (this : JSValue) (node : ASTNode)
    (fmin fmax : spec_float) :
  UnwrapValid this = Some node ->
  invoke (DescendantForIndex this [JSNumber fmin; JSNumber fmax])
  = Returns
      (NewInstance
         (ts_node_descendant_for_byte_range (node_ node)
            (size_t_of_int (int32_wrap (ToInt32 fmin * 2)))
            (size_t_of_int (int32_wrap (ToInt32 fmax * 2))))
         (document_ node) (parse_count_ node))
  /\ invoke (NamedDescendantForIndex this [JSNumber fmin; JSNumber fmax])
     = Returns
         (NewInstance
            (ts_node_named_descendant_for_byte_range (node_ node)
               (size_t_of_int (int32_wrap (ToInt32 fmin * 2)))
               (size_t_of_int (int32_wrap (ToInt32 fmax * 2))))
            (document_ node) (parse_count_ node)).
Proof.
  intros Hv. index_query Hv. split; reflexivity.
Qed.

Lemma index_getters (this : JSValue) (node : ASTNode) :
  UnwrapValid this = Some node ->
  invoke (StartIndex this)
  = Returns (JSNumber (Number_of_Z
              (int32_of_size_t (ts_node_start_byte (node_ node) / 2)%N)))
  /\ invoke (EndIndex this)
     = Returns (JSNumber (Number_of_Z
                 (int32_of_size_t (ts_node_end_byte (node_ node) / 2)%N))).
Proof.
  intros Hv. unfold StartIndex, EndIndex. rewrite Hv. split; reflexivity.
Qed.

Lemma half_fits_int32 (b : N) :
  (b < 2 ^ 32)%N -> int32_of_size_t (b / 2)%N = Z.of_N b / 2.
Proof.
  intros Hb. rewrite int32_of_size_t_small.
  - now rewrite N2Z.inj_div.
  - change (2 ^ 32)%N with (2 * 2 ^ 31)%N in Hb.
    apply N.Div0.div_lt_upper_bound. lia.
Qed.

(** C6. On a valid handle, [startIndex] and [endIndex] are the runtime's
    byte offsets divided by 2 (for offsets below [2^32], so that the half
    fits the 32-bit result), and [descendantForIndex] /
    [namedDescendantForIndex] query the runtime with each index
    multiplied by 2 (for indices in [0, 2^30), so that the double fits
    an [int]); in particular [descendantForIndex(0, 1)] queries the byte
    range from 0 to 2. *)
Theorem unit_width_two (this : JSValue) (node : ASTNode) :
  UnwrapValid this = Some node ->
  ((ts_node_start_byte (node_ node) < 2 ^ 32)%N ->
     invoke (StartIndex this)
     = Returns (JSNumber (Number_of_Z
                  (Z.of_N (ts_node_start_byte (node_ node)) / 2))))
  /\ ((ts_node_end_byte (node_ node) < 2 ^ 32)%N ->
      invoke (EndIndex this)
      = Returns (JSNumber (Number_of_Z
                   (Z.of_N (ts_node_end_byte (node_ node)) / 2))))
  /\ (forall fmin fmax : spec_float,
        0 <= ToInt32 fmin < 2 ^ 30 -> 0 <= ToInt32 fmax < 2 ^ 30 ->
        invoke (DescendantForIndex this [JSNumber fmin; JSNumber fmax])
        = Returns
            (NewInstance
               (ts_node_descendant_for_byte_range (node_ node)
                  (Z.to_N (ToInt32 fmin * 2)) (Z.to_N (ToInt32 fmax * 2)))
               (document_ node) (parse_count_ node))
        /\ invoke (NamedDescendantForIndex this
                     [JSNumber fmin; JSNumber fmax])
           = Returns
               (NewInstance
                  (ts_node_named_descendant_for_byte_range (node_ node)
                     (Z.to_N (ToInt32 fmin * 2))
                     (Z.to_N (ToInt32 fmax * 2)))
                  (document_ node) (parse_count_ node)))
  /\ invoke (DescendantForIndex this [JSNumber double_0; JSNumber double_1])
     = Returns
         (NewInstance
            (ts_node_descendant_for_byte_range (node_ node) 0 2)
            (document_ node) (parse_count_ node)).
Proof.
  intros Hv.
  destruct (index_getters this node Hv) as [Hstart Hend].
  split; [|split; [|split]].
  - intros Hb. now rewrite Hstart, half_fits_int32.
  - intros Hb. now rewrite Hend, half_fits_int32.
  - intros fmin fmax Hmin Hmax.
    destruct (index_query_two this node fmin fmax Hv) as [-> ->].
    apply byte_index_double in Hmin, Hmax.
    cbn [Int32Value] in Hmin, Hmax. now rewrite Hmin, Hmax.
  - now destruct (index_query_two this node double_0 double_1 Hv) as [-> _].
Qed.

End handle_properties.

(** ** Point queries *)

Section point_properties.
Context {E : Engine}.

(** A point argument that is not an object is rejected. *)
Lemma position_query_rejects_non_object
    (this : JSValue) (node : ASTNode) (arg : JSValue) :
  UnwrapValid this = Some node ->
  IsObject arg = false ->
  invoke (DescendantForPosition this [arg])
  = Throws (TypeError "Point must be a {row, column} object")
  /\ invoke (NamedDescendantForPosition this [arg])
     = Throws (TypeError "Point must be a {row, column} object").
Proof.
  intros Hv Hobj. unfold DescendantForPosition, NamedDescendantForPosition.
  rewrite Hv. cbn [length]. rewrite info_at_0. unfold PointFromJS.
  rewrite Hobj. split; reflexivity.
Qed.

(** An object whose [row] or [column] is not a number ends the call
    without a result and without an exception. *)
Lemma position_query_silent_on_bad_fields
    (this : JSValue) (node : ASTNode) (arg : JSValue) :
  UnwrapValid this = Some node ->
  IsObject arg = true ->
  IsNumber (Get arg row_key) = false
  \/ IsNumber (Get arg column_key) = false ->
  invoke (DescendantForPosition this [arg]) = Returns JSUndefined
  /\ invoke (NamedDescendantForPosition this [arg]) = Returns JSUndefined.
Proof.
  intros Hv Hobj Hbad.
  unfold DescendantForPosition, NamedDescendantForPosition.
  rewrite Hv. cbn [length]. rewrite info_at_0. unfold PointFromJS.
  rewrite Hobj. cbn [negb].
  assert (negb (IsNumber (Get arg row_key))
          || negb (IsNumber (Get arg column_key)) = true) as ->.
  { destruct Hbad as [-> | ->]; [reflexivity|]. apply orb_true_r. }
  split; reflexivity.
Qed.

End point_properties.

(** C3. [descendantForPosition({row: "a", column: 0})] on a valid handle
    returns [undefined] and raises nothing, and so does the named variant:
    [PointFromJS] gives up on the non-numeric [row] without having thrown,
    unlike its own non-object branch and unlike
    [ByteIndexFromJSStringIndex]. *)
Theorem bad_point_fields_raise_nothing :
  UnwrapValid (E := toy_engine) toy_root = Some toy_root_node
  /\ invoke (DescendantForPosition (E := toy_engine) toy_root [point_bad_row])
     = Returns JSUndefined
  /\ invoke (NamedDescendantForPosition (E := toy_engine) toy_root
               [point_bad_row])
     = Returns JSUndefined.
Proof. repeat split; vm_compute; reflexivity. Qed.

(** ** edit *)

Lemma ts_document_edit_appends (edit : TSInputEdit) (w : World) :
  edits (ts_document (ts_document_edit edit w))
  = edits (ts_document w) ++ [edit].
Proof. reflexivity. Qed.

(** C1, as the code has it.  [edit] on an object descriptor hands the
    runtime one edit, and each of [position], [charsRemoved] and
    [charsInserted] that is a number goes into it converted to a 32-bit
    integer and stored as [size_t], in the caller's units: nothing is
    multiplied by the unit width. *)
Theorem Edit_hands_over_external_units
    (this : JSValue) (info : list JSValue) (w : World) :
  IsObject (info_at info 0) = true ->
  exists edit,
    call (Edit this info) w = (Returns this, ts_document_edit edit w)
    /\ (forall f, Get (info_at info 0) "position" = JSNumber f ->
         position edit = size_t_of_int (ToInt32 f))
    /\ (forall f, Get (info_at info 0) "charsRemoved" = JSNumber f ->
         chars_removed edit = size_t_of_int (ToInt32 f))
    /\ (forall f, Get (info_at info 0) "charsInserted" = JSNumber f ->
         chars_inserted edit = size_t_of_int (ToInt32 f)).
Proof.
  intros _. eexists. split; [reflexivity|].
  cbn [position chars_removed chars_inserted].
  repeat split; intros f ->; reflexivity.
Qed.

(** C1, as stated, fails: for [{position: 3, charsRemoved: 1,
    charsInserted: 1}] the runtime receives the edit (3, 1, 1), not the
    doubled (6, 2, 2). *)
Lemma Edit_does_not_double :
  edits (ts_document
           (snd (call (Edit this_document [descriptor_3_1_1]) Document_new)))
  = [ {| position := 3; chars_inserted := 1; chars_removed := 1 |} ]
  /\ edits (ts_document
              (snd (call (Edit this_document [descriptor_3_1_1])
                      Document_new)))
     <> [ {| position := 3 * 2; chars_inserted := 1 * 2;
             chars_removed := 1 * 2 |} ].
Proof. split; [vm_compute; reflexivity | vm_compute; discriminate]. Qed.

(** C10. [edit] on an object descriptor never throws: it returns the
    document itself, and the runtime is handed exactly one edit in which
    every field whose descriptor property is absent or not a number is 0. *)
Theorem Edit_total_with_zero_defaults
    (this : JSValue) (info : list JSValue) (w : World) :
  IsObject (info_at info 0) = true ->
  exists edit,
    call (Edit this info) w = (Returns this, ts_document_edit edit w)
    /\ (IsNumber (Get (info_at info 0) "position") = false ->
        position edit = 0%N)
    /\ (IsNumber (Get (info_at info 0) "charsRemoved") = false ->
        chars_removed edit = 0%N)
    /\ (IsNumber (Get (info_at info 0) "charsInserted") = false ->
        chars_inserted edit = 0%N).
Proof.
  intros _. eexists. split; [reflexivity|].
  cbn [position chars_removed chars_inserted].
  repeat split; intros ->; reflexivity.
Qed.

(** ** setInput and the life of an adapter *)

(** The object path: the new adapter is allocated and installed first, and
    only then is the adapter that was installed before deleted. *)
Lemma SetInput_installs_then_deletes
    (this source : JSValue) (w : World) :
  IsObject source = true ->
  IsFunction (Get source "seek") = true ->
  IsFunction (Get source "read") = true ->
  call (SetInput this [source]) w
  = (Returns this,
     let installed :=
       ts_document_set_input (InputReader_Input (next_address w))
         (snd (new_InputReader source w)) in
     if payload (ts_document_input w) =? 0 then installed
     else delete_InputReader (payload (ts_document_input w)) installed).
Proof.
  intros Hobj Hseek Hread. unfold SetInput. rewrite info_at_0.
  destruct source; try discriminate; cbn [IsNull IsFalse IsUndefined orb];
    cbn [IsObject negb]; rewrite ?Hseek, ?Hread; cbn [negb];
    unfold call, in_world, on_world, bind, get_world, put_world, ret,
      SetReturnValue; cbn [fst snd world exception return_value];
    destruct (payload (ts_document_input w) =? 0); reflexivity.
Qed.

(** The reset path: the empty input is installed and no adapter is
    deleted. *)
Lemma SetInput_none_deletes_nothing (this none : JSValue) (w : World) :
  IsNull none || IsFalse none || IsUndefined none = true ->
  call (SetInput this [none]) w
  = (Returns this,
     ts_document_set_input
       {| payload := 0; read := fn_null; seek := fn_null;
          encoding := TSInputEncodingUTF16 |} w).
Proof.
  intros Hnone. unfold SetInput. rewrite info_at_0, Hnone. reflexivity.
Qed.

(** A source that is present but is not an object with callable [seek] and
    [read] is rejected and the world stays as it was. *)
Lemma SetInput_rejects (this source : JSValue) (w : World) :
  IsNull source || IsFalse source || IsUndefined source = false ->
  IsObject source && IsFunction (Get source "seek")
    && IsFunction (Get source "read") = false ->
  snd (call (SetInput this [source]) w) = w.
Proof.
  intros Hnone Hbad. unfold SetInput. rewrite info_at_0, Hnone.
  destruct w.
  destruct (IsObject source); [|reflexivity].
  destruct (IsFunction (Get source "seek")); [|reflexivity].
  destruct (IsFunction (Get source "read")); [discriminate|reflexivity].
Qed.

Lemma adapters_accounted_new : adapters_accounted Document_new.
Proof.
  split; cbn.
  - lia.
  - now left.
  - intros a. rewrite lookup_empty. split; [intros [? [=]] | lia].
  - constructor.
  - intros a. split; [intros H; now apply elem_of_nil in H | lia].
Qed.

Lemma adapters_accounted_SetInput (this source : JSValue) (w : World) :
  IsNull source || IsFalse source || IsUndefined source = false ->
  adapters_accounted w ->
  adapters_accounted (snd (call (SetInput this [source]) w)).
Proof.
  intros Hnone [Hpos Hrange Hlive Hnodup Hdel].
  destruct (IsObject source && IsFunction (Get source "seek")
            && IsFunction (Get source "read")) eqn:Hok.
  2:{ rewrite SetInput_rejects by assumption. now split. }
  apply andb_prop in Hok as [Hok Hread].
  apply andb_prop in Hok as [Hobj Hseek].
  rewrite SetInput_installs_then_deletes by assumption.
  cbn [snd]. unfold ts_document_input in *.
  set (p := payload (input (ts_document w))) in *.
  destruct (Z.eqb_spec p 0) as [Hp|Hp].
  - split; cbn.
    + lia.
    + right. lia.
    + intros a. rewrite lookup_insert_is_Some, Hlive. lia.
    + assumption.
    + intros a. rewrite Hdel. lia.
  - split; cbn.
    + lia.
    + right. lia.
    + intros a.
      rewrite lookup_delete_is_Some, lookup_insert_is_Some, Hlive. lia.
    + constructor; [|assumption]. rewrite Hdel. lia.
    + intros a. rewrite elem_of_cons, Hdel. lia.
Qed.

Lemma adapters_accounted_SetInput_each
    (this : JSValue) (sources : list JSValue) (w : World) :
  Forall (fun source =>
            IsNull source || IsFalse source || IsUndefined source = false)
    sources ->
  adapters_accounted w ->
  adapters_accounted (SetInput_each this sources w).
Proof.
  intros Hall. revert w.
  induction Hall as [|source sources Hnone _ IH]; intros w Hw.
  - exact Hw.
  - cbn. apply IH. now apply adapters_accounted_SetInput.
Qed.

(** X16. As long as no call resets the input, the claim of C2 holds: after any
    sequence of [setInput] calls and the destruction of the document, no
    adapter is left allocated and every adapter that was allocated has been
    deleted exactly once. *)
Lemma object_inputs_delete_each_reader_once
    (this : JSValue) (sources : list JSValue) :
  Forall (fun source =>
            IsNull source || IsFalse source || IsUndefined source = false)
    sources ->
  let w := Document_delete (SetInput_each this sources Document_new) in
  readers w = ∅
  /\ NoDup (deleted w)
  /\ forall a, a ∈ deleted w <-> 1 <= a < next_address w.
Proof.
  intros Hall.
  pose proof (adapters_accounted_SetInput_each this sources Document_new Hall
                adapters_accounted_new) as [Hpos Hrange Hlive Hnodup Hdel].
  set (w0 := SetInput_each this sources Document_new) in *.
  cbv zeta. unfold Document_delete.
  destruct (Z.eqb_spec (payload (ts_document_input w0)) 0) as [Hp|Hp]; cbn.
  - split; [|split].
    + apply map_empty. intros a. apply eq_None_not_Some. rewrite Hlive. lia.
    + assumption.
    + intros a. rewrite Hdel. lia.
  - split; [|split].
    + apply map_empty. intros a. apply eq_None_not_Some.
      rewrite lookup_delete_is_Some, Hlive. lia.
    + constructor; [|assumption]. rewrite Hdel. lia.
    + intros a. rewrite elem_of_cons, Hdel. lia.
Qed.

(** Replacing one source by another and destroying the document deletes
    each of the two adapters once and leaves none behind. *)
Example replace_scenario_deletes_each_once :
  deleted replace_scenario = [2; 1] /\ readers replace_scenario = ∅.
Proof. split; vm_compute; reflexivity. Qed.

(** C2. The adapter installed by [setInput(source)] is not deleted by a
    following [setInput(null)], and not by the destructor either, which
    finds a null payload: once the document is gone the adapter is still
    allocated and has never been deleted. *)
Theorem SetInput_none_leaks_reader :
  ts_document_freed reset_scenario = true
  /\ readers reset_scenario !! 1 = Some {| object := host_source 0 |}
  /\ deleted reset_scenario = [].
Proof. repeat split; vm_compute; reflexivity. Qed.

(** ** The theorems at concrete inputs *)

Lemma Edit_hands_over_external_units_witness :
  IsObject (info_at [descriptor_3_1_1] 0) = true
  /\ Get (info_at [descriptor_3_1_1] 0) "position" = JSNumber double_3
  /\ Get (info_at [descriptor_3_1_1] 0) "charsRemoved" = JSNumber double_1
  /\ Get (info_at [descriptor_3_1_1] 0) "charsInserted" = JSNumber double_1
  /\ exists edit,
       call (Edit this_document [descriptor_3_1_1]) Document_new
       = (Returns this_document, ts_document_edit edit Document_new)
       /\ position edit = 3%N
       /\ chars_removed edit = 1%N
       /\ chars_inserted edit = 1%N.
Proof.
  split; [reflexivity|].
  split; [reflexivity|]. split; [reflexivity|]. split; [reflexivity|].
  destruct (Edit_hands_over_external_units this_document [descriptor_3_1_1]
              Document_new eq_refl) as (edit & Hcall & Hp & Hr & Hi).
  exists edit. split; [exact Hcall|]. split; [|split].
  - exact (Hp double_3 eq_refl).
  - exact (Hr double_1 eq_refl).
  - exact (Hi double_1 eq_refl).
Defined.

Lemma IsValid_reports_version_equality_witness :
  Unwrap toy_root = Some toy_root_node
  /\ invoke (IsValid (E := toy_engine) toy_root []) = Returns (JSBoolean true)
  /\ Unwrap toy_stale = Some toy_stale_node
  /\ invoke (IsValid (E := toy_engine) toy_stale [])
     = Returns (JSBoolean false).
Proof.
  split; [reflexivity|]. split.
  - apply (proj1 (proj2 (IsValid_reports_version_equality
                             (E := toy_engine) toy_root [])) toy_root_node).
    reflexivity.
  - split; [reflexivity|].
    apply (proj1 (proj2 (IsValid_reports_version_equality
                           (E := toy_engine) toy_stale [])) toy_stale_node).
    reflexivity.
Defined.

Lemma stale_accessors_yield_absent_witness :
  ObjectWrap_Unwrap toy_stale = Some toy_stale_node
  /\ parse_count_ toy_stale_node
     <> ts_document_parse_count (Engine := toy_engine)
          (document_ toy_stale_node)
  /\ invoke (StartIndex (E := toy_engine) toy_stale) = Returns JSNull
  /\ invoke (Parent (E := toy_engine) toy_stale) = Returns JSNull
  /\ invoke (ToString (E := toy_engine) toy_stale []) = Returns JSUndefined.
Proof.
  assert (Hne : parse_count_ toy_stale_node
                <> ts_document_parse_count (Engine := toy_engine)
                     (document_ toy_stale_node)) by discriminate.
  destruct (stale_accessors_yield_absent (E := toy_engine)
              toy_stale toy_stale_node eq_refl Hne) as [Hget Hstr].
  split; [reflexivity|]. split; [exact Hne|]. split; [|split].
  - apply (Hget "startIndex"). unfold enum_getters. set_solver.
  - apply (Hget "parent"). unfold enum_getters, non_enum_getters. set_solver.
  - apply Hstr.
Defined.

Lemma stale_queries_ignore_arguments_witness :
  ObjectWrap_Unwrap toy_stale = Some toy_stale_node
  /\ parse_count_ toy_stale_node
     <> ts_document_parse_count (Engine := toy_engine)
          (document_ toy_stale_node)
  /\ invoke (DescendantForIndex (E := toy_engine) toy_stale []) 
     = Returns JSUndefined
  /\ invoke (NamedDescendantForIndex (E := toy_engine) toy_stale [])
     = Returns JSUndefined
  /\ invoke (DescendantForPosition (E := toy_engine) toy_stale [])
     = Returns JSUndefined
  /\ invoke (NamedDescendantForPosition (E := toy_engine) toy_stale [])
     = Returns JSUndefined.
Proof.
  assert (Hne : parse_count_ toy_stale_node
                <> ts_document_parse_count (Engine := toy_engine)
                     (document_ toy_stale_node)) by discriminate.
  split; [reflexivity|]. split; [exact Hne|].
  exact (stale_queries_ignore_arguments (E := toy_engine)
           toy_stale toy_stale_node [] eq_refl Hne).
Defined.

Lemma index_query_argument_errors_witness :
  UnwrapValid (E := toy_engine) toy_root = Some toy_root_node
  /\ invoke (DescendantForIndex (E := toy_engine) toy_root [])
     = Throws (TypeError "Must provide 1 or 2 character indices")
  /\ invoke (DescendantForIndex (E := toy_engine) toy_root
               [JSNull; JSNull; JSNull])
     = Throws (TypeError "Must provide 1 or 2 character indices")
  /\ invoke (DescendantForIndex (E := toy_engine) toy_root [JSString "a"])
     = Throws (TypeError "Character index must be a number").
Proof.
  split; [reflexivity|]. split; [|split].
  - apply (proj1 (index_query_argument_errors (E := toy_engine)
                    toy_root toy_root_node [] eq_refl)).
    left. reflexivity.
  - apply (proj1 (index_query_argument_errors (E := toy_engine)
                    toy_root toy_root_node [JSNull; JSNull; JSNull] eq_refl)).
    right. cbn [length]. lia.
  - apply (proj2 (index_query_argument_errors (E := toy_engine)
                    toy_root toy_root_node [JSString "a"] eq_refl)).
    + cbn [length]. lia.
    + exists (JSString "a"). split; [set_solver | reflexivity].
Defined.

Lemma unit_width_two_witness :
  UnwrapValid (E := toy_engine) toy_root = Some toy_root_node
  /\ invoke (StartIndex (E := toy_engine) toy_root)
     = Returns (JSNumber (Number_of_Z 0))
  /\ invoke (EndIndex (E := toy_engine) toy_root)
     = Returns (JSNumber (Number_of_Z 2))
  /\ invoke (DescendantForIndex (E := toy_engine) toy_root
               [JSNumber double_1; JSNumber double_1])
     = Returns (NewInstance (toy_descendant (toy_node 1) 2 2) 100 1)
  /\ invoke (DescendantForIndex (E := toy_engine) toy_root
               [JSNumber double_0; JSNumber double_1])
     = Returns (NewInstance (toy_descendant (toy_node 1) 0 2) 100 1).
Proof.
  destruct (unit_width_two (E := toy_engine)
              toy_root toy_root_node eq_refl)
    as (Hstart & Hend & Hquery & H01).
  split; [reflexivity|]. split; [|split; [|split]].
  - apply Hstart. reflexivity.
  - apply Hend. reflexivity.
  - apply (Hquery double_1 double_1); vm_compute; split; congruence.
  - exact H01.
Defined.

Lemma Edit_total_with_zero_defaults_witness :
  IsObject (info_at [descriptor_bad] 0) = true
  /\ exists edit,
       call (Edit this_document [descriptor_bad]) Document_new
       = (Returns this_document, ts_document_edit edit Document_new)
       /\ (IsNumber (Get (info_at [descriptor_bad] 0) "position") = false ->
           position edit = 0%N)
       /\ (IsNumber (Get (info_at [descriptor_bad] 0) "charsRemoved") = false ->
           chars_removed edit = 0%N)
       /\ (IsNumber (Get (info_at [descriptor_bad] 0) "charsInserted") = false ->
           chars_inserted edit = 0%N).
Proof.
  split; [reflexivity|].
  apply (Edit_total_with_zero_defaults this_document [descriptor_bad]
           Document_new).
  reflexivity.
Defined.

(** * Further properties of the handles *)

Section more_handle_properties.
Context {E : Engine}.

Ltac unfold_getters := cbv beta delta [StartIndex EndIndex StartPosition
  EndPosition Type_ IsNamed Parent Children NamedChildren NextSibling
  NextNamedSibling PreviousSibling PreviousNamedSibling].

Ltac each_getter Hin tac :=
  unfold enum_getters, non_enum_getters in Hin; cbn [app] in Hin;
  repeat (apply elem_of_cons in Hin as [[= _ ->]|Hin]; [tac|]);
  try (now apply elem_of_nil in Hin).

(** X1. No property getter of a handle and no [toString()] call ever
    throws, whatever the receiver is; and when the validity gate fails
    (the handle is stale, or wraps a null node) each of the thirteen
    getters returns [null] and [toString()] returns [undefined]. *)
Theorem getters_never_throw (this : JSValue) :
  (forall name getter e,
      (name, getter) ∈ enum_getters ++ non_enum_getters ->
      invoke (getter this) <> Throws e)
  /\ (forall info e, invoke (ToString this info) <> Throws e)
  /\ (UnwrapValid this = None ->
      (forall name getter,
          (name, getter) ∈ enum_getters ++ non_enum_getters ->
          invoke (getter this) = Returns JSNull)
      /\ (forall info, invoke (ToString this info) = Returns JSUndefined)).
Proof.
  split; [|split].
  - intros name getter e Hin.
    each_getter Hin ltac:(unfold_getters; cbv zeta;
      destruct (UnwrapValid this) as [node|]; try discriminate;
      match goal with |- context [data ?n =? 0] =>
             destruct (data n =? 0) end; discriminate).
  - intros info e. unfold ToString.
    destruct (UnwrapValid this); discriminate.
  - intros Hgate. split.
    + intros name getter Hin.
      each_getter Hin ltac:(unfold_getters; rewrite Hgate;
                            apply invoke_SetReturnValue).
    + intros info. unfold ToString. rewrite Hgate. apply invoke_ret.
Qed.

(** X2. For the six enumerable getters and for [children] and
    [namedChildren], [null] is the mark of a closed validity gate and of
    nothing else: the getter yields [null] exactly when [UnwrapValid]
    fails. *)
Theorem null_property_means_stale (this : JSValue) :
  forall name getter,
    (name, getter) ∈ enum_getters
                     ++ [("children", Children);
                         ("namedChildren", NamedChildren)] ->
    (invoke (getter this) = Returns JSNull <-> UnwrapValid this = None).
Proof.
  intros name getter Hin.
  unfold enum_getters in Hin. cbn [app] in Hin.
  repeat (apply elem_of_cons in Hin as [[= _ ->]|Hin];
          [unfold_getters; destruct (UnwrapValid this) as [node|];
           (split; [try discriminate; try reflexivity
                   | try discriminate; try reflexivity]) |]).
  now apply elem_of_nil in Hin.
Qed.

Lemma UnwrapValid_NewInstance (target : TSNode) (node : ASTNode) :
  parse_count_ node = ts_document_parse_count (document_ node) ->
  data target <> 0 ->
  UnwrapValid (NewInstance target (document_ node) (parse_count_ node))
  = Some {| node_ := target; document_ := document_ node;
            parse_count_ := parse_count_ node |}.
Proof.
  intros Hpc Hdata. unfold UnwrapValid, Unwrap, NewInstance.
  cbn [ObjectWrap_Unwrap node_ document_ parse_count_].
  rewrite (proj2 (Z.eqb_neq _ _) Hdata).
  cbn [node_ document_ parse_count_].
  now rewrite (proj2 (N.eqb_eq _ _) Hpc).
Qed.

(** X3. On a valid handle, [parent] and the four sibling getters yield
    [null] when the runtime has no such node, and otherwise a handle for
    the runtime's node that carries the receiver's document and parse count
    and is itself valid. *)
Theorem navigation_yields_null_or_valid_handle
    (this : JSValue) (node : ASTNode) :
  UnwrapValid this = Some node ->
  forall name getter engine_query,
    (name, getter, engine_query)
      ∈ [ ("parent", Parent, ts_node_parent);
          ("nextSibling", NextSibling, ts_node_next_sibling);
          ("nextNamedSibling", NextNamedSibling, ts_node_next_named_sibling);
          ("previousSibling", PreviousSibling, ts_node_prev_sibling);
          ("previousNamedSibling", PreviousNamedSibling,
           ts_node_prev_named_sibling) ] ->
    (data (engine_query (node_ node)) = 0 ->
       invoke (getter this) = Returns JSNull)
    /\ (data (engine_query (node_ node)) <> 0 ->
        invoke (getter this)
        = Returns (NewInstance (engine_query (node_ node))
                     (document_ node) (parse_count_ node))
        /\ UnwrapValid (NewInstance (engine_query (node_ node))
                          (document_ node) (parse_count_ node))
           = Some {| node_ := engine_query (node_ node);
                     document_ := document_ node;
                     parse_count_ := parse_count_ node |}).
Proof.
  intros Hv name getter engine_query Hin.
  destruct (UnwrapValid_inv this node Hv) as [_ Hpc].
  repeat (apply elem_of_cons in Hin as [[= _ -> ->]|Hin];
    [unfold_getters; cbv zeta; rewrite Hv;
     split;
     [ intros Hnull; now rewrite (proj2 (Z.eqb_eq _ _) Hnull)
     | intros Hdata; rewrite (proj2 (Z.eqb_neq _ _) Hdata);
       split; [reflexivity | now apply UnwrapValid_NewInstance] ] |]).
  now apply elem_of_nil in Hin.
Qed.

(** X4. On a valid handle, whatever one of the four range queries returns,
    other than [undefined], is a handle that carries the receiver's
    document and parse count; it is valid as soon as the runtime's node is
    not null. *)
Theorem query_results_are_stamped_like_the_receiver
    (this : JSValue) (node : ASTNode) :
  UnwrapValid this = Some node ->
  forall name method info v,
    (name, method)
      ∈ [ ("descendantForIndex", DescendantForIndex);
          ("namedDescendantForIndex", NamedDescendantForIndex);
          ("descendantForPosition", DescendantForPosition);
          ("namedDescendantForPosition", NamedDescendantForPosition) ] ->
    invoke (method this info) = Returns v ->
    v <> JSUndefined ->
    exists target,
      v = NewInstance target (document_ node) (parse_count_ node)
      /\ (data target <> 0 ->
          UnwrapValid v
          = Some {| node_ := target; document_ := document_ node;
                    parse_count_ := parse_count_ node |}).
Proof.
  intros Hv name method info v Hin Hcall Hdef.
  destruct (UnwrapValid_inv this node Hv) as [_ Hpc].
  assert (Hdone : forall target,
             Returns (NewInstance target (document_ node) (parse_count_ node))
             = Returns v ->
             exists target,
               v = NewInstance target (document_ node) (parse_count_ node)
               /\ (data target <> 0 ->
                   UnwrapValid v
                   = Some {| node_ := target; document_ := document_ node;
                             parse_count_ := parse_count_ node |})).
  { intros target [= <-]. exists target. split; [reflexivity|].
    now apply UnwrapValid_NewInstance. }
  repeat (apply elem_of_cons in Hin as [[= _ ->]|Hin];
    [ unfold DescendantForIndex, NamedDescendantForIndex,
        DescendantForPosition, NamedDescendantForPosition in Hcall;
      rewrite Hv in Hcall;
      destruct info as [|a [|b [|c l]]]; cbn [length] in Hcall;
      rewrite ?info_at_0, ?info_at_1 in Hcall;
      unfold ByteIndexFromJSStringIndex, PointFromJS in Hcall;
      try discriminate Hcall;
      repeat match type of Hcall with
             | context [IsNumber ?x] => destruct (IsNumber x)
             | context [IsObject ?x] => destruct (IsObject x)
             end;
      try discriminate Hcall;
      try (injection Hcall as <-; congruence);
      try (eapply Hdone; exact Hcall) |]).
  now apply elem_of_nil in Hin.
Qed.

(** X5. [isValid()] returns [true] exactly when the validity gate of the
    other accessors is open, that is, when [UnwrapValid] succeeds. *)
Theorem IsValid_true_iff_gate_open (this : JSValue) (info : list JSValue) :
  invoke (IsValid this info) = Returns (JSBoolean true)
  <-> exists node, UnwrapValid this = Some node.
Proof.
  unfold IsValid, UnwrapValid.
  destruct (Unwrap this) as [node|].
  - rewrite invoke_SetReturnValue.
    destruct (parse_count_ node =? ts_document_parse_count (document_ node))%N.
    + split; [eauto | reflexivity].
    + split; [discriminate | intros [n [=]]].
  - split; [discriminate | intros [n [=]]].
Qed.

Ltac position_query H :=
  unfold DescendantForPosition, NamedDescendantForPosition; rewrite H.

(** X6. On a valid handle, [descendantForPosition] and
    [namedDescendantForPosition] called with no argument or with three or
    more throw the TypeError "Must provide 1 or 2 points"; called with one
    or two arguments of which one is not an object they throw the TypeError
    "Point must be a {row, column} object", whatever the other argument
    is. *)
Theorem position_query_argument_errors
    (this : JSValue) (node : ASTNode) (info : list JSValue) :
  UnwrapValid this = Some node ->
  ((length info = 0 \/ 3 <= length info)%nat ->
     invoke (DescendantForPosition this info)
     = Throws (TypeError "Must provide 1 or 2 points")
     /\ invoke (NamedDescendantForPosition this info)
        = Throws (TypeError "Must provide 1 or 2 points"))
  /\ ((1 <= length info <= 2)%nat ->
      (exists v, v ∈ info /\ IsObject v = false) ->
      invoke (DescendantForPosition this info)
      = Throws (TypeError "Point must be a {row, column} object")
      /\ invoke (NamedDescendantForPosition this info)
         = Throws (TypeError "Point must be a {row, column} object")).
Proof.
  intros Hv. split.
  - intros Hlen. position_query Hv.
    destruct info as [|a [|b [|c l]]]; cbn [length] in *;
      try lia; split; reflexivity.
  - intros Hlen (v & Hin & Hobj). position_query Hv.
    destruct info as [|a [|b [|c l]]]; cbn [length] in *; try lia.
    + apply list_elem_of_singleton in Hin as ->.
      rewrite info_at_0. unfold PointFromJS.
      rewrite Hobj. split; reflexivity.
    + rewrite info_at_0, info_at_1. unfold PointFromJS.
      apply elem_of_cons in Hin as [->|Hin].
      * rewrite Hobj. destruct (IsObject b); cbn [negb];
          [destruct (negb (IsNumber (Get b row_key))
                     || negb (IsNumber (Get b column_key)))|];
          split; reflexivity.
      * apply list_elem_of_singleton in Hin as ->.
        rewrite Hobj. destruct (IsObject a); cbn [negb];
          [destruct (negb (IsNumber (Get a row_key))
                     || negb (IsNumber (Get a column_key)))|];
          split; reflexivity.
Qed.

(** X7. A single point argument is the range from that point to itself:
    [descendantForPosition(p)] and [descendantForPosition(p, p)] have the
    same outcome, and so have the named variants, for every receiver and
    every argument. *)
Theorem single_point_is_degenerate_range (this p : JSValue) :
  invoke (DescendantForPosition this [p])
  = invoke (DescendantForPosition this [p; p])
  /\ invoke (NamedDescendantForPosition this [p])
     = invoke (NamedDescendantForPosition this [p; p]).
Proof.
  unfold DescendantForPosition, NamedDescendantForPosition.
  destruct (UnwrapValid this) as [node|]; [|split; reflexivity].
  cbn [length]. rewrite !info_at_0, info_at_1.
  unfold PointFromJS.
  destruct (IsObject p); cbn [negb]; [|split; reflexivity].
  destruct (negb (IsNumber (Get p row_key))
            || negb (IsNumber (Get p column_key))); split; reflexivity.
Qed.

Lemma size_t_of_Number_of_N (n : N) :
  (n < 2 ^ 31)%N ->
  size_t_of_int (Int32Value (JSNumber (Number_of_Z (Z.of_N n)))) = n.
Proof.
  intros Hn. cbn [Int32Value].
  assert (0 <= Z.of_N n < 2 ^ 31).
  { split; [apply N2Z.is_nonneg|]. apply N2Z.inj_lt in Hn. exact Hn. }
  rewrite ToInt32_Number_of_Z by lia.
  rewrite size_t_of_int_nonneg by lia. apply N2Z.id.
Qed.

Lemma Get_PointToJS (p : TSPoint) :
  Get (PointToJS p) row_key = JSNumber (Number_of_Z (Z.of_N (row p)))
  /\ Get (PointToJS p) column_key
     = JSNumber (Number_of_Z (Z.of_N (column p))).
Proof.
  unfold PointToJS, Get. split.
  - rewrite lookup_insert_ne by discriminate.
    now rewrite lookup_insert_eq.
  - now rewrite lookup_insert_eq.
Qed.

(** X8. A point that [PointToJS] wrote is read back by [PointFromJS]
    unchanged as long as its row and column are below [2^31]: on a valid
    handle, a position query given [PointToJS p] asks the runtime for the
    range from [p] to [p]. *)
Theorem point_round_trip (this : JSValue) (node : ASTNode) (p : TSPoint) :
  UnwrapValid this = Some node ->
  (row p < 2 ^ 31)%N -> (column p < 2 ^ 31)%N ->
  invoke (DescendantForPosition this [PointToJS p])
  = Returns (NewInstance
               (ts_node_descendant_for_point_range (node_ node) p p)
               (document_ node) (parse_count_ node))
  /\ invoke (NamedDescendantForPosition this [PointToJS p])
     = Returns (NewInstance
                  (ts_node_named_descendant_for_point_range (node_ node) p p)
                  (document_ node) (parse_count_ node)).
Proof.
  intros Hv Hrow Hcol. position_query Hv.
  cbn [length]. rewrite info_at_0. unfold PointFromJS.
  destruct (Get_PointToJS p) as [-> ->].
  change (IsObject (PointToJS p)) with true. cbn [negb IsNumber orb].
  rewrite !size_t_of_Number_of_N by assumption.
  destruct p as [r c]. split; reflexivity.
Qed.

(** X9. On a valid handle whose start (end) byte [b] is below [2^31],
    passing the value of [startIndex] ([endIndex]) to [descendantForIndex]
    asks the runtime for byte [2 * (b / 2)]: the byte offset itself when it
    is even, the one before it when it is odd. *)
Theorem index_round_trip (this : JSValue) (node : ASTNode) :
  UnwrapValid this = Some node ->
  ((ts_node_start_byte (node_ node) < 2 ^ 31)%N ->
     exists v,
       invoke (StartIndex this) = Returns v
       /\ invoke (DescendantForIndex this [v])
          = Returns (NewInstance
                       (ts_node_descendant_for_byte_range (node_ node)
                          (2 * (ts_node_start_byte (node_ node) / 2))
                          (2 * (ts_node_start_byte (node_ node) / 2)))
                       (document_ node) (parse_count_ node)))
  /\ ((ts_node_end_byte (node_ node) < 2 ^ 31)%N ->
      exists v,
        invoke (EndIndex this) = Returns v
        /\ invoke (DescendantForIndex this [v])
           = Returns (NewInstance
                        (ts_node_descendant_for_byte_range (node_ node)
                           (2 * (ts_node_end_byte (node_ node) / 2))
                           (2 * (ts_node_end_byte (node_ node) / 2)))
                        (document_ node) (parse_count_ node))).
Proof.
  intros Hv.
  assert (Hback : forall b : N, (b < 2 ^ 31)%N ->
            size_t_of_int
              (int32_wrap
                 (Int32Value (JSNumber (Number_of_Z
                                          (int32_of_size_t (b / 2)%N))) * 2))
            = (2 * (b / 2))%N).
  { intros b Hb.
    assert (Hhalf : (b / 2 < 2 ^ 30)%N).
    { apply N.Div0.div_lt_upper_bound.
      change (2 * 2 ^ 30)%N with (2 ^ 31)%N. exact Hb. }
    assert (0 <= Z.of_N (b / 2) < 2 ^ 30).
    { split; [apply N2Z.is_nonneg|].
      apply N2Z.inj_lt in Hhalf. exact Hhalf. }
    rewrite int32_of_size_t_small
      by (eapply N.lt_trans; [exact Hhalf | reflexivity]).
    cbn [Int32Value]. rewrite ToInt32_Number_of_Z by lia.
    rewrite int32_wrap_small by lia.
    rewrite size_t_of_int_nonneg by lia. lia. }
  split; intros Hb; eexists;
    (split; [unfold StartIndex, EndIndex; rewrite Hv;
             apply invoke_SetReturnValue|]);
    unfold DescendantForIndex; rewrite Hv; cbn [length]; rewrite info_at_0;
    unfold ByteIndexFromJSStringIndex; cbn [IsNumber negb];
    rewrite Hback by assumption; reflexivity.
Qed.

(** X10. A negative index is not rejected.  On a valid handle, an index
    whose 32-bit value [i] lies in [-2^30, 0) is handed to the runtime as
    the byte offset [2^64 + 2 * i]. *)
Theorem negative_index_wraps
    (this : JSValue) (node : ASTNode) (f : spec_float) :
  UnwrapValid this = Some node ->
  - 2 ^ 30 <= ToInt32 f < 0 ->
  invoke (DescendantForIndex this [JSNumber f])
  = Returns (NewInstance
               (ts_node_descendant_for_byte_range (node_ node)
                  (Z.to_N (2 ^ 64 + 2 * ToInt32 f))
                  (Z.to_N (2 ^ 64 + 2 * ToInt32 f)))
               (document_ node) (parse_count_ node))
  /\ invoke (NamedDescendantForIndex this [JSNumber f])
     = Returns (NewInstance
                  (ts_node_named_descendant_for_byte_range (node_ node)
                     (Z.to_N (2 ^ 64 + 2 * ToInt32 f))
                     (Z.to_N (2 ^ 64 + 2 * ToInt32 f)))
                  (document_ node) (parse_count_ node)).
Proof.
  intros Hv Hf.
  assert (Hwrap : size_t_of_int (int32_wrap (Int32Value (JSNumber f) * 2))
                  = Z.to_N (2 ^ 64 + 2 * ToInt32 f)).
  { cbn [Int32Value]. rewrite int32_wrap_small by lia.
    unfold size_t_of_int. f_equal.
    rewrite <- (Z.mod_add _ 1) by lia.
    rewrite Z.mod_small by lia. lia. }
  unfold DescendantForIndex, NamedDescendantForIndex. rewrite Hv.
  cbn [length]. rewrite info_at_0. unfold ByteIndexFromJSStringIndex.
  cbn [IsNumber negb]. rewrite Hwrap. split; reflexivity.
Qed.

(** X11. [rootNode] on a document yields [null] when the runtime has no
    root, and otherwise a handle for the root stamped with the document's
    current parse count, for which [isValid()] is [true]. *)
Theorem RootNode_mints_null_or_valid_handle
    (ts_document_root_node : TSDocumentPtr -> TSNode)
    (document : TSDocumentPtr) :
  (data (ts_document_root_node document) = 0 ->
     invoke (RootNode ts_document_root_node (JSDocument document))
     = Returns JSNull)
  /\ (data (ts_document_root_node document) <> 0 ->
      invoke (RootNode ts_document_root_node (JSDocument document))
      = Returns (NewInstance (ts_document_root_node document) document
                   (ts_document_parse_count document))
      /\ invoke (IsValid
                   (NewInstance (ts_document_root_node document) document
                      (ts_document_parse_count document)) [])
         = Returns (JSBoolean true)).
Proof.
  unfold RootNode. cbn [Document_document_]. split.
  - intros Hnull. now rewrite (proj2 (Z.eqb_eq _ _) Hnull).
  - intros Hdata. rewrite (proj2 (Z.eqb_neq _ _) Hdata).
    split; [reflexivity|].
    unfold IsValid, Unwrap, NewInstance.
    cbn [ObjectWrap_Unwrap node_ document_ parse_count_].
    rewrite (proj2 (Z.eqb_neq _ _) Hdata).
    cbn [node_ document_ parse_count_]. now rewrite N.eqb_refl.
Qed.

End more_handle_properties.

(** * Further properties of the document *)

(** ** Reading the input back *)

Ltac run_GetInput :=
  cbv beta iota zeta
    delta [GetInput call in_world bind get_world put_world ret
           ts_document_input SetReturnValue fst snd world exception
           return_value ts_document input payload seek readers negb andb
           InputFunction_eqb].

Lemma call_GetInput (this : JSValue) (info : list JSValue) (w : World) :
  call (GetInput this info) w
  = (if negb (payload (ts_document_input w) =? 0)
        && InputFunction_eqb (seek (ts_document_input w)) InputReader_Seek
     then match readers w !! payload (ts_document_input w) with
          | Some reader => Returns (object reader)
          | None => Returns JSUndefined
          end
     else Returns JSNull,
     w).
Proof.
  destruct w as [[[p rd sk enc] ed] fr rs dl na]. run_GetInput.
  destruct (p =? 0); run_GetInput; [reflexivity|].
  destruct sk; run_GetInput; try reflexivity.
  destruct (rs !! p); reflexivity.
Qed.

Lemma heap_sound_new : heap_sound Document_new.
Proof.
  split; cbn.
  - lia.
  - intros a [r Hr]. now rewrite lookup_empty in Hr.
  - intros a Ha. now apply elem_of_nil in Ha.
  - constructor.
  - now left.
Qed.

Lemma heap_sound_SetInput (this : JSValue) (info : list JSValue) (w : World) :
  heap_sound w -> heap_sound (snd (call (SetInput this info) w)).
Proof.
  intros [Hnext Hlive Hdel Honce Hinst].
  unfold SetInput.
  destruct (IsNull (info_at info 0) || IsFalse (info_at info 0)
            || IsUndefined (info_at info 0)) eqn:Hnone.
  { split; cbn; auto. }
  destruct (IsObject (info_at info 0)); cbn [negb]; [|now split].
  destruct (IsFunction (Get (info_at info 0) "seek")); cbn [negb];
    [|now split].
  destruct (IsFunction (Get (info_at info 0) "read")); cbn [negb];
    [|now split].
  unfold call, in_world, on_world, bind, get_world, put_world, ret,
    SetReturnValue. cbn [fst snd world exception return_value].
  unfold ts_document_input in *.
  set (p := payload (input (ts_document w))) in *.
  destruct (Z.eqb_spec p 0) as [Hp|Hp]; cbn [fst snd world].
  - split; cbn.
    + lia.
    + intros a. rewrite lookup_insert_is_Some. intros [<-|[_ Ha]]; [lia|].
      apply Hlive in Ha. lia.
    + intros a Ha. destruct (Hdel a Ha) as [Hrange Hgone]. split; [lia|].
      rewrite lookup_insert_ne by lia. exact Hgone.
    + assumption.
    + right. split; [|reflexivity]. rewrite lookup_insert_eq. eauto.
  - destruct Hinst as [Hinst|[Hinst _]]; [contradiction|].
    pose proof (Hlive p Hinst) as Hprange.
    split; cbn.
    + lia.
    + intros a. rewrite lookup_delete_is_Some, lookup_insert_is_Some.
      intros [_ [<-|[_ Ha]]]; [lia|]. apply Hlive in Ha. lia.
    + intros a. rewrite elem_of_cons. intros [->|Ha].
      * split; [lia|]. apply lookup_delete_eq.
      * destruct (Hdel a Ha) as [Hrange Hgone]. split; [lia|].
        rewrite lookup_delete_None. right.
        rewrite lookup_insert_ne by lia. exact Hgone.
    + constructor; [|assumption]. intros Hin.
      destruct (Hdel p Hin) as [_ Hgone].
      destruct Hinst as [r Hr]. congruence.
    + right. split; [|reflexivity].
      rewrite lookup_delete_ne by lia. rewrite lookup_insert_eq. eauto.
Qed.

Lemma heap_sound_reachable (w : World) : reachable w -> heap_sound w.
Proof.
  induction 1 as [|name method this info w Hin _ IH].
  - exact heap_sound_new.
  - unfold world_methods in Hin.
    apply elem_of_cons in Hin as [[= _ ->]|Hin].
    { now rewrite call_GetInput. }
    apply elem_of_cons in Hin as [[= _ ->]|Hin].
    { now apply heap_sound_SetInput. }
    apply list_elem_of_singleton in Hin as [= _ ->].
    destruct IH. now split.
Qed.

Lemma reachable_world_with_input : reachable world_with_input.
Proof.
  apply (reachable_call "setInput" SetInput); [|exact reachable_new].
  unfold world_methods. apply elem_of_cons. right.
  apply elem_of_cons. now left.
Qed.

(** X12. After any sequence of [getInput], [setInput] and [edit] calls on a
    new document, with any arguments, the installed input payload is null
    or a live adapter; and once the document is destroyed no adapter has
    been deleted twice and no deleted adapter is still allocated. *)
Theorem adapters_never_dangle_nor_die_twice (w : World) :
  reachable w ->
  (payload (ts_document_input w) = 0
   \/ is_Some (readers w !! payload (ts_document_input w)))
  /\ NoDup (deleted (Document_delete w))
  /\ (forall a, a ∈ deleted (Document_delete w) ->
                readers (Document_delete w) !! a = None).
Proof.
  intros Hreach.
  destruct (heap_sound_reachable w Hreach) as [Hnext Hlive Hdel Honce Hinst].
  split; [tauto|].
  unfold Document_delete.
  destruct (Z.eqb_spec (payload (ts_document_input w)) 0) as [Hp|Hp]; cbn.
  - split; [assumption|]. intros a Ha. now apply Hdel.
  - destruct Hinst as [Hinst|[[r Hr] _]]; [contradiction|].
    split.
    + constructor; [|assumption]. intros Hin.
      destruct (Hdel _ Hin) as [_ Hgone]. congruence.
    + intros a. rewrite elem_of_cons. intros [->|Ha].
      * apply lookup_delete_eq.
      * rewrite lookup_delete_None. right. now apply Hdel.
Qed.

(** X13. In any world reachable by [getInput], [setInput] and [edit]
    calls, [getInput()] after a [setInput(source)] whose source is an
    object with callable [seek] and [read] returns that source. *)
Theorem GetInput_reads_back_SetInput
    (this this' source : JSValue) (info' : list JSValue) (w : World) :
  reachable w ->
  IsObject source = true ->
  IsFunction (Get source "seek") = true ->
  IsFunction (Get source "read") = true ->
  fst (call (GetInput this' info') (snd (call (SetInput this [source]) w)))
  = Returns source.
Proof.
  intros Hreach Hobj Hseek Hread.
  destruct (heap_sound_reachable w Hreach) as [Hnext Hlive Hdel Honce Hinst].
  rewrite SetInput_installs_then_deletes by assumption.
  rewrite call_GetInput. cbn [fst snd].
  unfold ts_document_input in *.
  set (p := payload (input (ts_document w))) in *.
  destruct (Z.eqb_spec p 0) as [Hp|Hp]; cbn.
  - rewrite (proj2 (Z.eqb_neq _ _)) by lia. cbn.
    now rewrite lookup_insert_eq.
  - destruct Hinst as [Hinst|[Hinst _]]; [contradiction|].
    pose proof (Hlive p Hinst).
    rewrite (proj2 (Z.eqb_neq _ _)) by lia. cbn.
    rewrite lookup_delete_ne by lia. now rewrite lookup_insert_eq.
Qed.

(** X14. [getInput()] after [setInput] with [null], [false] or [undefined]
    returns [null], whatever was installed before. *)
Theorem GetInput_after_reset
    (this this' none : JSValue) (info' : list JSValue) (w : World) :
  IsNull none || IsFalse none || IsUndefined none = true ->
  fst (call (GetInput this' info') (snd (call (SetInput this [none]) w)))
  = Returns JSNull.
Proof.
  intros Hnone. rewrite SetInput_none_deletes_nothing by assumption.
  now rewrite call_GetInput.
Qed.

(** X15. [setInput] with a source that is present but unusable throws and
    changes nothing: "Input must be an object" for a non-object, "Input
    must implement seek(n)" for an object without a callable [seek], and
    "Input must implement read(n)" for one with [seek] but no callable
    [read]. *)
Theorem SetInput_rejection (this source : JSValue) (w : World) :
  IsNull source || IsFalse source || IsUndefined source = false ->
  (IsObject source = false ->
     call (SetInput this [source]) w
     = (Throws (TypeError "Input must be an object"), w))
  /\ (IsObject source = true ->
      IsFunction (Get source "seek") = false ->
      call (SetInput this [source]) w
      = (Throws (TypeError "Input must implement seek(n)"), w))
  /\ (IsObject source = true ->
      IsFunction (Get source "seek") = true ->
      IsFunction (Get source "read") = false ->
      call (SetInput this [source]) w
      = (Throws (TypeError "Input must implement read(n)"), w)).
Proof.
  intros Hnone. unfold SetInput. rewrite info_at_0, Hnone.
  repeat split.
  - intros ->. destruct w; reflexivity.
  - intros -> ->. destruct w; reflexivity.
  - intros -> -> ->. destruct w; reflexivity.
Qed.

Lemma ToInt32_range (f : spec_float) : - 2 ^ 31 <= ToInt32 f < 2 ^ 31.
Proof.
  destruct f; cbn [ToInt32]; try lia. apply int32_wrap_range.
Qed.

Lemma size_t_of_int_negative (z : Z) :
  - 2 ^ 64 <= z < 0 -> size_t_of_int z = Z.to_N (2 ^ 64 + z).
Proof.
  intros Hz. unfold size_t_of_int. f_equal.
  rewrite <- (Z.mod_add _ 1) by lia.
  rewrite Z.mod_small by lia. lia.
Qed.

(** X17. [edit] on an object descriptor does not reject negative counts.
    A descriptor field that is a number with a negative 32-bit value [i]
    reaches the runtime as the [size_t] value [2^64 + i]. *)
Theorem Edit_negative_count_wraps
    (this : JSValue) (info : list JSValue) (w : World) :
  IsObject (info_at info 0) = true ->
  exists edit,
    call (Edit this info) w = (Returns this, ts_document_edit edit w)
    /\ (forall f, Get (info_at info 0) "position" = JSNumber f ->
         ToInt32 f < 0 ->
         position edit = Z.to_N (2 ^ 64 + ToInt32 f))
    /\ (forall f, Get (info_at info 0) "charsRemoved" = JSNumber f ->
         ToInt32 f < 0 ->
         chars_removed edit = Z.to_N (2 ^ 64 + ToInt32 f))
    /\ (forall f, Get (info_at info 0) "charsInserted" = JSNumber f ->
         ToInt32 f < 0 ->
         chars_inserted edit = Z.to_N (2 ^ 64 + ToInt32 f)).
Proof.
  intros _. eexists. split; [reflexivity|].
  cbn [position chars_removed chars_inserted].
  repeat split; intros f -> Hneg; cbn [IsNumber Int32Value];
    apply size_t_of_int_negative; pose proof (ToInt32_range f); lia.
Qed.

(** ** The logger *)

Ltac run_logger :=
  cbv beta iota zeta
    delta [GetLogger SetLogger call gets modify bind get_world put_world ret
           ts_document_logger ts_document_set_logger delete_Logger
           Logger_Make SetReturnValue ThrowTypeError fst snd world exception
           return_value ts_logger loggers deleted_loggers
           next_logger_address input_world Logging.payload Logging.log
           negb andb LogFunction_eqb].

Lemma call_GetLogger (this : JSValue) (info : list JSValue)
    (s : DocumentState) :
  call (GetLogger this info) s
  = (if negb (Logging.payload (ts_logger s) =? 0)
        && LogFunction_eqb (Logging.log (ts_logger s)) Logger_Log
     then match loggers s !! Logging.payload (ts_logger s) with
          | Some logger => Returns (Logging.func logger)
          | None => Returns JSUndefined
          end
     else Returns JSNull,
     s).
Proof.
  destruct s as [w [p lg] ls dl na]. run_logger.
  destruct (p =? 0); run_logger; [reflexivity|].
  destruct lg; run_logger; [reflexivity|].
  destruct (ls !! p); reflexivity.
Qed.

Lemma call_SetLogger (this : JSValue) (info : list JSValue)
    (s : DocumentState) :
  call (SetLogger this info) s
  = if IsFunction (info_at info 0) then
      (Returns this,
       ts_document_set_logger
         (fst (Logger_Make (info_at info 0) (after_delete s)))
         (snd (Logger_Make (info_at info 0) (after_delete s))))
    else
      (if IsNull (info_at info 0) || IsFalse (info_at info 0)
          || IsUndefined (info_at info 0)
       then Returns this
       else Throws (TypeError
              "Debug callback must either be a function or a falsy value"),
       ts_document_set_logger
         {| Logging.payload := 0; Logging.log := log_null |}
         (after_delete s)).
Proof.
  destruct s as [w [p lg] ls dl na]. unfold after_delete. run_logger.
  destruct (p =? 0); run_logger;
    destruct (IsFunction (info_at info 0)); run_logger; try reflexivity;
    destruct (IsNull (info_at info 0) || IsFalse (info_at info 0)
              || IsUndefined (info_at info 0)); reflexivity.
Qed.

Lemma loggers_accounted_new : loggers_accounted DocumentState_new.
Proof.
  split; cbn.
  - lia.
  - now left.
  - intros a. rewrite lookup_empty. split; [intros [? [=]] | lia].
  - constructor.
  - intros a. split; [intros H; now apply elem_of_nil in H | lia].
Qed.

Lemma after_delete_accounts (s : DocumentState) :
  loggers_accounted s ->
  1 <= next_logger_address (after_delete s)
  /\ next_logger_address (after_delete s) = next_logger_address s
  /\ (forall a, ~ is_Some (loggers (after_delete s) !! a))
  /\ NoDup (deleted_loggers (after_delete s))
  /\ (forall a, a ∈ deleted_loggers (after_delete s)
                <-> 1 <= a < next_logger_address s).
Proof.
  intros [Hnext Hinst Hlive Honce Hdel]. unfold after_delete.
  set (p := Logging.payload (ts_logger s)) in *.
  destruct (Z.eqb_spec p 0) as [Hp|Hp]; cbn.
  - split; [lia|]. split; [reflexivity|]. split; [|split].
    + intros a. rewrite Hlive. lia.
    + assumption.
    + intros a. rewrite Hdel. lia.
  - destruct Hinst as [Hinst|[Hinst _]]; [contradiction|].
    split; [lia|]. split; [reflexivity|]. split; [|split].
    + intros a. rewrite lookup_delete_is_Some, Hlive. lia.
    + constructor; [|assumption]. rewrite Hdel. lia.
    + intros a. rewrite elem_of_cons, Hdel. lia.
Qed.

Lemma loggers_accounted_SetLogger (this : JSValue) (info : list JSValue)
    (s : DocumentState) :
  loggers_accounted s ->
  loggers_accounted (snd (call (SetLogger this info) s)).
Proof.
  intros Hs.
  destruct (after_delete_accounts s Hs)
    as (Hnext & Hsame & Hnone & Honce & Hdel).
  rewrite call_SetLogger.
  destruct (IsFunction (info_at info 0)); cbn [snd].
  - split; cbn.
    + lia.
    + right. split; [lia | reflexivity].
    + intros a. rewrite lookup_insert_is_Some. specialize (Hnone a).
      split; [intros [<-|[_ Ha]]; [lia | contradiction]
             | intros [-> _]; now left].
    + assumption.
    + intros a. rewrite Hdel. lia.
  - split; cbn.
    + lia.
    + now left.
    + intros a. specialize (Hnone a). split; [contradiction | lia].
    + assumption.
    + intros a. rewrite Hdel. lia.
Qed.

Lemma loggers_accounted_reachable (s : DocumentState) :
  logger_reachable s -> loggers_accounted s.
Proof.
  induction 1 as [|name method this info s Hin _ IH].
  - exact loggers_accounted_new.
  - unfold logger_methods in Hin.
    apply elem_of_cons in Hin as [[= _ ->]|Hin].
    { now rewrite call_GetLogger. }
    apply list_elem_of_singleton in Hin as [= _ ->].
    now apply loggers_accounted_SetLogger.
Qed.

Lemma logger_reachable_logging_state : logger_reachable logging_state.
Proof.
  apply (logger_reachable_call "setLogger" SetLogger);
    [|exact logger_reachable_new].
  unfold logger_methods. apply elem_of_cons. right.
  apply elem_of_cons. now left.
Qed.

(** X18. After any sequence of [getLogger] and [setLogger] calls on a new
    document, with any arguments, accepted or rejected, the only logger
    adapter alive is the installed one, and every other adapter that was
    allocated has been deleted exactly once. *)
Theorem every_replaced_logger_is_deleted_once (s : DocumentState) :
  logger_reachable s ->
  NoDup (deleted_loggers s)
  /\ (forall a, is_Some (loggers s !! a)
                <-> a = Logging.payload (ts_logger s) /\ a <> 0)
  /\ (forall a, a ∈ deleted_loggers s
                <-> 1 <= a < next_logger_address s
                    /\ a <> Logging.payload (ts_logger s)).
Proof.
  intros Hreach.
  destruct (loggers_accounted_reachable s Hreach) as [_ _ Hlive Honce Hdel].
  auto.
Qed.

(** X19. In any state reachable by [getLogger] and [setLogger] calls,
    [getLogger()] after [setLogger(callback)] with a function returns that
    function. *)
Theorem GetLogger_reads_back_SetLogger
    (this this' callback : JSValue) (info' : list JSValue)
    (s : DocumentState) :
  logger_reachable s ->
  IsFunction callback = true ->
  fst (call (GetLogger this' info')
         (snd (call (SetLogger this [callback]) s)))
  = Returns callback.
Proof.
  intros Hreach Hfun.
  destruct (after_delete_accounts s (loggers_accounted_reachable s Hreach))
    as (Hnext & _).
  rewrite call_SetLogger, info_at_0, Hfun. rewrite call_GetLogger.
  cbn [fst snd ts_document_set_logger Logger_Make ts_logger loggers
       Logging.payload Logging.log LogFunction_eqb andb].
  rewrite (proj2 (Z.eqb_neq _ _)) by lia. cbn [negb].
  now rewrite lookup_insert_eq.
Qed.

(** X20. [setLogger] with an argument that is neither a function nor
    [null], [false] or [undefined] throws, and it has by then removed the
    logger that was installed: the previous adapter is deleted and
    [getLogger()] returns [null] afterwards. *)
Theorem SetLogger_rejection_clears_logger
    (this this' bad : JSValue) (info' : list JSValue) (s : DocumentState) :
  IsFunction bad = false ->
  IsNull bad || IsFalse bad || IsUndefined bad = false ->
  fst (call (SetLogger this [bad]) s)
  = Throws (TypeError
      "Debug callback must either be a function or a falsy value")
  /\ fst (call (GetLogger this' info') (snd (call (SetLogger this [bad]) s)))
     = Returns JSNull
  /\ (Logging.payload (ts_logger s) <> 0 ->
      Logging.payload (ts_logger s)
        ∈ deleted_loggers (snd (call (SetLogger this [bad]) s))).
Proof.
  intros Hfun Hnone.
  rewrite call_SetLogger, info_at_0, Hfun, Hnone. cbn [fst snd].
  split; [reflexivity|]. split.
  - now rewrite call_GetLogger.
  - intros Hp. unfold after_delete.
    rewrite (proj2 (Z.eqb_neq _ _) Hp). cbn. apply elem_of_cons. now left.
Qed.

(** X21. The destructor does not delete the logger: if a logger is
    installed when the document is destroyed, its adapter is still
    allocated afterwards and has never been deleted. *)
Theorem destructor_leaves_logger_allocated (s : DocumentState) :
  logger_reachable s ->
  Logging.payload (ts_logger s) <> 0 ->
  is_Some (loggers (Document_destroy s) !! Logging.payload (ts_logger s))
  /\ (Logging.payload (ts_logger s) ∉ deleted_loggers (Document_destroy s))
  /\ ts_document_freed (input_world (Document_destroy s)) = true.
Proof.
  intros Hreach Hp.
  destruct (loggers_accounted_reachable s Hreach) as [_ _ Hlive _ Hdel].
  cbn [Document_destroy loggers deleted_loggers input_world].
  split; [|split].
  - apply Hlive. auto.
  - rewrite Hdel. lia.
  - unfold Document_delete.
    destruct (payload (ts_document_input (input_world s)) =? 0); reflexivity.
Qed.

(** ** The further properties at concrete inputs *)

Lemma getters_never_throw_witness :
  UnwrapValid (E := toy_engine) toy_null = None
  /\ invoke (Parent (E := toy_engine) toy_null) = Returns JSNull
  /\ invoke (NextSibling (E := toy_engine) toy_null) = Returns JSNull
  /\ invoke (ToString (E := toy_engine) toy_null []) = Returns JSUndefined
  /\ UnwrapValid (E := toy_engine) toy_stale = None
  /\ invoke (Type_ (E := toy_engine) toy_stale) = Returns JSNull.
Proof.
  destruct (proj2 (proj2 (getters_never_throw (E := toy_engine) toy_null))
              eq_refl) as [Hnull Hstr].
  destruct (proj2 (proj2 (getters_never_throw (E := toy_engine) toy_stale))
              eq_refl) as [Hstale _].
  split; [reflexivity|]. split; [|split; [|split; [|split]]].
  - apply (Hnull "parent"). unfold enum_getters, non_enum_getters.
    cbn [app]. do 6 (apply elem_of_cons; right). apply elem_of_cons. now left.
  - apply (Hnull "nextSibling"). unfold enum_getters, non_enum_getters.
    cbn [app]. do 9 (apply elem_of_cons; right). apply elem_of_cons. now left.
  - apply Hstr.
  - reflexivity.
  - apply (Hstale "type"). unfold enum_getters, non_enum_getters.
    cbn [app]. do 4 (apply elem_of_cons; right). apply elem_of_cons. now left.
Defined.

Lemma null_property_means_stale_witness :
  ("type", Type_ (E := toy_engine) (W := unit))
    ∈ enum_getters (E := toy_engine)
      ++ [("children", Children (E := toy_engine));
          ("namedChildren", NamedChildren (E := toy_engine))]
  /\ (invoke (Type_ (E := toy_engine) toy_stale) = Returns JSNull
      <-> UnwrapValid (E := toy_engine) toy_stale = None)
  /\ invoke (Type_ (E := toy_engine) toy_stale) = Returns JSNull.
Proof.
  assert (Hin : ("type", Type_ (E := toy_engine) (W := unit))
                  ∈ enum_getters (E := toy_engine)
                    ++ [("children", Children (E := toy_engine));
                        ("namedChildren", NamedChildren (E := toy_engine))]).
  { unfold enum_getters. cbn [app]. do 4 (apply elem_of_cons; right).
    apply elem_of_cons. now left. }
  split; [exact Hin|].
  pose proof (null_property_means_stale (E := toy_engine) toy_stale
                "type" Type_ Hin) as Hiff.
  split; [exact Hiff|]. apply Hiff. reflexivity.
Defined.

Lemma navigation_yields_null_or_valid_handle_witness :
  UnwrapValid (E := toy_engine) toy_leaf = Some toy_leaf_node
  /\ invoke (Parent (E := toy_engine) toy_leaf) = Returns toy_root
  /\ UnwrapValid (E := toy_engine) toy_root = Some toy_root_node
  /\ invoke (NextSibling (E := toy_engine) toy_leaf) = Returns JSNull.
Proof.
  split; [reflexivity|].
  pose proof (navigation_yields_null_or_valid_handle (E := toy_engine)
                toy_leaf toy_leaf_node eq_refl) as Hnav.
  split; [|split].
  - refine (proj1 (proj2 (Hnav "parent" Parent toy_parent _) _)).
    + apply elem_of_cons. now left.
    + discriminate.
  - refine (proj2 (proj2 (Hnav "parent" Parent toy_parent _) _)).
    + apply elem_of_cons. now left.
    + discriminate.
  - refine (proj1 (Hnav "nextSibling" NextSibling toy_next _) _).
    + apply elem_of_cons. right. apply elem_of_cons. now left.
    + reflexivity.
Defined.

Lemma query_results_are_stamped_like_the_receiver_witness :
  UnwrapValid (E := toy_engine) toy_root = Some toy_root_node
  /\ invoke (DescendantForIndex (E := toy_engine) toy_root [JSNumber double_1])
     = Returns toy_leaf
  /\ exists target,
       toy_leaf = NewInstance target 100 1
       /\ (data target <> 0 ->
           UnwrapValid (E := toy_engine) toy_leaf
           = Some {| node_ := target; document_ := 100;
                     parse_count_ := 1 |}).
Proof.
  assert (Hcall : invoke (DescendantForIndex (E := toy_engine) toy_root
                            [JSNumber double_1])
                  = Returns toy_leaf) by reflexivity.
  split; [reflexivity|]. split; [exact Hcall|].
  refine (query_results_are_stamped_like_the_receiver (E := toy_engine)
            toy_root toy_root_node eq_refl "descendantForIndex"
            DescendantForIndex [JSNumber double_1] toy_leaf _ Hcall _).
  - apply elem_of_cons. now left.
  - discriminate.
Defined.

Lemma position_query_argument_errors_witness :
  UnwrapValid (E := toy_engine) toy_root = Some toy_root_node
  /\ invoke (DescendantForPosition (E := toy_engine) toy_root [])
     = Throws (TypeError "Must provide 1 or 2 points")
  /\ invoke (DescendantForPosition (E := toy_engine) toy_root
               [point_bad_row; JSNull])
     = Throws (TypeError "Point must be a {row, column} object").
Proof.
  split; [reflexivity|]. split.
  - apply (proj1 (position_query_argument_errors (E := toy_engine)
                    toy_root toy_root_node [] eq_refl)).
    left. reflexivity.
  - apply (proj2 (position_query_argument_errors (E := toy_engine)
                    toy_root toy_root_node [point_bad_row; JSNull] eq_refl)).
    + cbn [length]. lia.
    + exists JSNull. split; [|reflexivity].
      apply elem_of_cons. right. apply elem_of_cons. now left.
Defined.

Lemma point_round_trip_witness :
  UnwrapValid (E := toy_engine) toy_root = Some toy_root_node
  /\ (row (toy_point 2) < 2 ^ 31)%N
  /\ (column (toy_point 2) < 2 ^ 31)%N
  /\ invoke (DescendantForPosition (E := toy_engine) toy_root
               [PointToJS (toy_point 2)])
     = Returns toy_leaf.
Proof.
  split; [reflexivity|]. split; [reflexivity|]. split; [reflexivity|].
  exact (proj1 (point_round_trip (E := toy_engine) toy_root toy_root_node
                  (toy_point 2) eq_refl eq_refl eq_refl)).
Defined.

Lemma index_round_trip_witness :
  UnwrapValid (E := toy_engine) toy_leaf = Some toy_leaf_node
  /\ (ts_node_start_byte (Engine := toy_engine) (node_ toy_leaf_node)
      < 2 ^ 31)%N
  /\ exists v,
       invoke (StartIndex (E := toy_engine) toy_leaf) = Returns v
       /\ invoke (DescendantForIndex (E := toy_engine) toy_leaf [v])
          = Returns (NewInstance (toy_descendant (toy_node 3) 2 2) 100 1).
Proof.
  split; [reflexivity|]. split; [reflexivity|].
  exact (proj1 (index_round_trip (E := toy_engine) toy_leaf toy_leaf_node
                  eq_refl) eq_refl).
Defined.

Lemma negative_index_wraps_witness :
  UnwrapValid (E := toy_engine) toy_root = Some toy_root_node
  /\ - 2 ^ 30 <= ToInt32 double_minus_1 < 0
  /\ invoke (DescendantForIndex (E := toy_engine) toy_root
               [JSNumber double_minus_1])
     = Returns (NewInstance
                  (toy_descendant (toy_node 1)
                     18446744073709551614 18446744073709551614) 100 1).
Proof.
  assert (Hrange : - 2 ^ 30 <= ToInt32 double_minus_1 < 0)
    by (vm_compute; split; [discriminate | reflexivity]).
  split; [reflexivity|]. split; [exact Hrange|].
  exact (proj1 (negative_index_wraps (E := toy_engine) toy_root toy_root_node
                  double_minus_1 eq_refl Hrange)).
Defined.

Lemma RootNode_mints_null_or_valid_handle_witness :
  data (toy_root_of 100) <> 0
  /\ invoke (RootNode (E := toy_engine) toy_root_of (JSDocument 100))
     = Returns toy_root
  /\ invoke (IsValid (E := toy_engine) toy_root []) = Returns (JSBoolean true).
Proof.
  assert (Hdata : data (toy_root_of 100) <> 0) by discriminate.
  split; [exact Hdata|].
  exact (proj2 (RootNode_mints_null_or_valid_handle (E := toy_engine)
                  toy_root_of 100) Hdata).
Defined.

Lemma adapters_never_dangle_nor_die_twice_witness :
  reachable world_with_input
  /\ (payload (ts_document_input world_with_input) = 0
      \/ is_Some (readers world_with_input
                    !! payload (ts_document_input world_with_input)))
  /\ NoDup (deleted (Document_delete world_with_input))
  /\ (forall a, a ∈ deleted (Document_delete world_with_input) ->
                readers (Document_delete world_with_input) !! a = None).
Proof.
  split; [exact reachable_world_with_input|].
  exact (adapters_never_dangle_nor_die_twice world_with_input
           reachable_world_with_input).
Defined.

Lemma GetInput_reads_back_SetInput_witness :
  reachable world_with_input
  /\ IsObject (host_source 2) = true
  /\ IsFunction (Get (host_source 2) "seek") = true
  /\ IsFunction (Get (host_source 2) "read") = true
  /\ fst (call (GetInput this_document [])
            (snd (call (SetInput this_document [host_source 2])
                    world_with_input)))
     = Returns (host_source 2).
Proof.
  split; [exact reachable_world_with_input|].
  split; [reflexivity|]. split; [reflexivity|]. split; [reflexivity|].
  exact (GetInput_reads_back_SetInput this_document this_document
           (host_source 2) [] world_with_input reachable_world_with_input
           eq_refl eq_refl eq_refl).
Defined.

Lemma GetInput_after_reset_witness :
  IsNull JSNull || IsFalse JSNull || IsUndefined JSNull = true
  /\ fst (call (GetInput this_document [])
            (snd (call (SetInput this_document [JSNull]) world_with_input)))
     = Returns JSNull.
Proof.
  split; [reflexivity|].
  exact (GetInput_after_reset this_document this_document JSNull []
           world_with_input eq_refl).
Defined.

Lemma SetInput_rejection_witness :
  IsNull (JSString "text") || IsFalse (JSString "text")
    || IsUndefined (JSString "text") = false
  /\ IsObject (JSString "text") = false
  /\ call (SetInput this_document [JSString "text"]) world_with_input
     = (Throws (TypeError "Input must be an object"), world_with_input).
Proof.
  split; [reflexivity|]. split; [reflexivity|].
  exact (proj1 (SetInput_rejection this_document (JSString "text")
                  world_with_input eq_refl) eq_refl).
Defined.

Lemma object_inputs_delete_each_reader_once_witness :
  Forall (fun source =>
            IsNull source || IsFalse source || IsUndefined source = false)
    [host_source 0; JSString "text"; host_source 2]
  /\ readers (Document_delete
                (SetInput_each this_document
                   [host_source 0; JSString "text"; host_source 2]
                   Document_new)) = ∅.
Proof.
  assert (Hall : Forall (fun source =>
                   IsNull source || IsFalse source || IsUndefined source
                   = false)
                   [host_source 0; JSString "text"; host_source 2]).
  { repeat constructor. }
  split; [exact Hall|].
  exact (proj1 (object_inputs_delete_each_reader_once this_document
                  [host_source 0; JSString "text"; host_source 2] Hall)).
Defined.

Lemma Edit_negative_count_wraps_witness :
  IsObject (info_at [descriptor_negative] 0) = true
  /\ Get (info_at [descriptor_negative] 0) "position"
     = JSNumber double_minus_1
  /\ ToInt32 double_minus_1 < 0
  /\ exists edit,
       call (Edit this_document [descriptor_negative]) Document_new
       = (Returns this_document, ts_document_edit edit Document_new)
       /\ position edit = 18446744073709551615%N.
Proof.
  split; [reflexivity|]. split; [reflexivity|]. split; [reflexivity|].
  destruct (Edit_negative_count_wraps this_document [descriptor_negative]
              Document_new eq_refl) as (edit & Hcall & Hp & _).
  exists edit. split; [exact Hcall|].
  exact (Hp double_minus_1 eq_refl eq_refl).
Defined.

Lemma every_replaced_logger_is_deleted_once_witness :
  logger_reachable logging_state
  /\ NoDup (deleted_loggers logging_state)
  /\ (forall a, is_Some (loggers logging_state !! a)
                <-> a = Logging.payload (ts_logger logging_state) /\ a <> 0)
  /\ (forall a, a ∈ deleted_loggers logging_state
                <-> 1 <= a < next_logger_address logging_state
                    /\ a <> Logging.payload (ts_logger logging_state)).
Proof.
  split; [exact logger_reachable_logging_state|].
  exact (every_replaced_logger_is_deleted_once logging_state
           logger_reachable_logging_state).
Defined.

Lemma GetLogger_reads_back_SetLogger_witness :
  logger_reachable logging_state
  /\ IsFunction (JSFunction 9) = true
  /\ fst (call (GetLogger this_document [])
            (snd (call (SetLogger this_document [JSFunction 9])
                    logging_state)))
     = Returns (JSFunction 9).
Proof.
  split; [exact logger_reachable_logging_state|]. split; [reflexivity|].
  exact (GetLogger_reads_back_SetLogger this_document this_document
           (JSFunction 9) [] logging_state logger_reachable_logging_state
           eq_refl).
Defined.

Lemma SetLogger_rejection_clears_logger_witness :
  IsFunction (JSString "log") = false
  /\ IsNull (JSString "log") || IsFalse (JSString "log")
       || IsUndefined (JSString "log") = false
  /\ fst (call (SetLogger this_document [JSString "log"]) logging_state)
     = Throws (TypeError
         "Debug callback must either be a function or a falsy value")
  /\ fst (call (GetLogger this_document [])
            (snd (call (SetLogger this_document [JSString "log"])
                    logging_state)))
     = Returns JSNull.
Proof.
  split; [reflexivity|]. split; [reflexivity|].
  destruct (SetLogger_rejection_clears_logger this_document this_document
              (JSString "log") [] logging_state eq_refl eq_refl)
    as (Hthrow & Hnull & _).
  split; [exact Hthrow | exact Hnull].
Defined.

Lemma destructor_leaves_logger_allocated_witness :
  logger_reachable logging_state
  /\ Logging.payload (ts_logger logging_state) <> 0
  /\ is_Some (loggers (Document_destroy logging_state) !! 1)
  /\ (1 ∉ deleted_loggers (Document_destroy logging_state)).
Proof.
  assert (Hp : Logging.payload (ts_logger logging_state) <> 0)
    by discriminate.
  split; [exact logger_reachable_logging_state|]. split; [exact Hp|].
  destruct (destructor_leaves_logger_allocated logging_state
              logger_reachable_logging_state Hp) as (Hlive & Hdel & _).
  split; [exact Hlive | exact Hdel].
Defined.
